(** * Olist decision dashboard: the data-preparation layer of [app.py]

    A shallow embedding of the script [src/app.py]: the loader with its demo
    fallbacks, the 90-day window, the weekly aggregation, the KPI reductions,
    the segment/impact rollup and the policy rollup, followed by the
    properties the specification states about them.

    Conventions of the embedding.
    - A pandas float cell is a [num]: [Some q] for a finite value [q : Q]
      and [None] for NaN.  Arithmetic is exact rational arithmetic; the
      rounding of IEEE doubles and the infinities are not modelled.
    - A pandas datetime cell is a [timestamp]: [Some ns] with [ns : Z] the
      nanoseconds since the epoch, and [None] for NaT.
    - A DataFrame is the list of its rows, a record per row holding the
      columns the script reads.
    - A Python exception is the [Raised] case of [outcome].
    - A table read from a file has the columns the script reads, with
      cells of the kind the script expects; the range limits of pandas
      timestamps are not modelled.
    - The kind of a column matters where the script uses an accessor or
      joins on it.  A date column parsed from a file that has a header and
      no row is an object column, on which [.dt] raises; a text column
      that has rows and no text in any of them is a float column, on which
      [.str] raises and which does not join with a text column.
    - [sort_values] is modelled by a stable insertion sort: rows with
      equal keys keep the order of the frame, as the sort of numpy does on
      the short tables of this page.
    - The memoisation of [load_data] ([st.cache_data]) and the rendering
      calls of streamlit and altair are left out: one run is one load
      followed by the derivations. *)

From Stdlib Require Import ZArith QArith Qround Lqa List String Ascii Bool Lia.
From Stdlib Require Import Sorted Permutation.
From Stdlib Require OrderedTypeEx.
From stdpp Require Import base option list numbers strings.
Import ListNotations.

Local Open Scope Z_scope.

(** ** Cells *)

Definition num : Type := option Q.
Definition NaN : num := None.

Definition timestamp : Type := option Z.
Definition NaT : timestamp := None.

(** [pd.Timedelta(days=d)] in nanoseconds. *)
Definition day_ns : Z := 86400000000000.
Definition Timedelta (days : Z) : Z := days * day_ns.

(** An order id is a number in the demo frame and text in a real file. *)
Inductive ident : Type :=
| IdNum (n : Z)
| IdText (s : string).

#[global] Instance ident_eq_dec : EqDecision ident.
Proof. solve_decision. Defined.

(** Equality of cells up to the representation of a rational. *)
Definition num_eq (a b : num) : Prop :=
  match a, b with
  | Some x, Some y => (x == y)%Q
  | None, None => True
  | _, _ => False
  end.

(** ** Exceptions *)

Inductive outcome (A : Type) : Type :=
| Value (a : A)
| Raised (exn : string).
Arguments Value {A} a.
Arguments Raised {A} exn.

Definition bind {A B : Type} (m : outcome A) (k : A -> outcome B) : outcome B :=
  match m with
  | Value a => k a
  | Raised e => Raised e
  end.

Notation "'let*' x ':=' m 'in' k" := (bind m (fun x => k))
  (at level 10, x name, m at level 100, k at level 200).

(** ** Series reductions *)

(** [Series.dropna()]. *)
Fixpoint dropna {A : Type} (col : list (option A)) : list A :=
  match col with
  | [] => []
  | Some x :: rest => x :: dropna rest
  | None :: rest => dropna rest
  end.

(** [Series.notna()] on one cell. *)
Definition notna {A : Type} (c : option A) : bool :=
  match c with
  | Some _ => true
  | None => false
  end.

Definition q_sum (xs : list Q) : Q := fold_right Qplus 0%Q xs.

Definition q_of_nat (n : nat) : Q := inject_Z (Z.of_nat n).

(** [Series.sum()]: missing cells are skipped, the empty sum is 0. *)
Definition series_sum (col : list num) : Q := q_sum (dropna col).

(** [Series.mean()]: missing cells are skipped; NaN when nothing is left. *)
Definition series_mean (col : list num) : num :=
  match dropna col with
  | [] => NaN
  | xs => Some (q_sum xs / q_of_nat (length xs))%Q
  end.

(** [Series.nunique()]: the number of distinct non-missing cells. *)
Definition nunique {A : Type} `{EqDecision A} (col : list (option A)) : nat :=
  length (remove_dups (dropna col)).

(** [Series.max()] of a datetime column: NaT is skipped, NaT when nothing
    is left. *)
Definition later (a b : timestamp) : timestamp :=
  match a, b with
  | None, x => x
  | x, None => x
  | Some x, Some y => Some (Z.max x y)
  end.

Definition series_max (col : list timestamp) : timestamp :=
  fold_right later NaT col.

(** [ts - pd.Timedelta(days=d)]; NaT stays NaT. *)
Definition ts_minus_days (t : timestamp) (d : Z) : timestamp :=
  match t with
  | Some ns => Some (ns - Timedelta d)
  | None => NaT
  end.

(** [a <= b] on datetime cells: any comparison with NaT is False. *)
Definition ts_le (a b : timestamp) : bool :=
  match a, b with
  | Some x, Some y => x <=? y
  | _, _ => false
  end.

(** [Series.between(left, right)], inclusive="both":
    [(left <= s) & (s <= right)]. *)
Definition between (s left right : timestamp) : bool :=
  ts_le left s && ts_le s right.

(** ** The order table ([olist_clean_with_features.csv]) *)

Record order : Type := {
  order_id : option ident;
  order_purchase_timestamp : timestamp;
  order_delivered_customer_date : timestamp;
  order_estimated_delivery_date : timestamp;
  on_time : num;
  delivery_time_days : num;
  review_score_mean : num;
  gross_revenue : num
}.

(** ** Time window (lines 116-118) *)

Definition end_date (clean : list order) : timestamp :=
  series_max (map order_purchase_timestamp clean).

Definition start_90 (clean : list order) : timestamp :=
  ts_minus_days (end_date clean) 90.

Definition df90 (clean : list order) : list order :=
  List.filter
    (fun r => between (order_purchase_timestamp r) (start_90 clean) (end_date clean))
    clean.

(** ** Weekly aggregation (lines 120-126) *)

(** [ts.to_period("W").start_time]: the Monday 00:00 that opens the week
    (Monday to Sunday) of [ts].  Day 0 of the epoch is a Thursday. *)
Definition week_start (ns : Z) : Z :=
  let d := ns / day_ns in
  (d - (d + 3) mod 7) * day_ns.

Definition week_of (r : order) : timestamp :=
  match order_purchase_timestamp r with
  | Some ns => Some (week_start ns)
  | None => NaT
  end.

(** The keys of a [groupby]: the distinct non-missing keys in increasing
    order. *)
Fixpoint insert_key (k : Z) (ks : list Z) : list Z :=
  match ks with
  | [] => [k]
  | x :: rest =>
      if k <? x then k :: ks
      else if k =? x then ks
      else x :: insert_key k rest
  end.

Definition group_keys (keys : list timestamp) : list Z :=
  fold_right insert_key [] (dropna keys).

(** The rows of one group, in the order of the frame. *)
Definition week_rows (rows : list order) (k : Z) : list order :=
  List.filter (fun r => bool_decide (week_of r = Some k)) rows.

Definition num_mul (a b : num) : num :=
  match a, b with
  | Some x, Some y => Some (x * y)%Q
  | _, _ => NaN
  end.

(** A row of [weekly] after [.agg(...).reset_index()]. *)
Record week_agg : Type := {
  week : Z;
  orders : nat;
  otd : num;
  review : num
}.

Definition weekly_agg (df : list order) : list week_agg :=
  map (fun k =>
         let g := week_rows df k in
         {| week := k;
            orders := nunique (map order_id g);
            otd := series_mean (map on_time g);
            review := series_mean (map review_score_mean g) |})
      (group_keys (map week_of df)).

(** [weekly["otd_pct"] = weekly["otd"]*100]. *)
Definition otd_pct_col (w : list week_agg) : list num :=
  map (fun r => num_mul (otd r) (Some 100%Q)) w.

(** [Series.rolling(window, min_periods).mean()]: at position [i] the
    observations are the non-missing cells among positions
    [max 0 (i+1-window) .. i]; NaN with fewer than [min_periods] of them
    (and with none at all). *)
Definition rolling_window (window : nat) (col : list num) (i : nat) : list num :=
  let lo := (S i - window)%nat in
  firstn (S i - lo) (skipn lo col).

Definition rolling_mean (window min_periods : nat) (col : list num) : list num :=
  map (fun i =>
         let obs := dropna (rolling_window window col i) in
         if (min_periods <=? length obs)%nat then series_mean (map Some obs) else NaN)
      (seq 0 (length col)).

(** [weekly["review_rolling"] = weekly["review"].rolling(4, min_periods=1).mean()]. *)
Definition review_rolling_col (w : list week_agg) : list num :=
  rolling_mean 4 1 (map review w).

(** A row of the finished [weekly] frame. *)
Record week_row : Type := {
  agg : week_agg;
  otd_pct : num;
  review_rolling : num
}.

Fixpoint zip3 {A B C D : Type} (f : A -> B -> C -> D)
    (xs : list A) (ys : list B) (zs : list C) : list D :=
  match xs, ys, zs with
  | x :: xs', y :: ys', z :: zs' => f x y z :: zip3 f xs' ys' zs'
  | _, _, _ => []
  end.

(** The finished [weekly] frame of lines 120-126, for a frame whose
    purchase column holds datetimes. *)
Definition weekly_frame (df : list order) : list week_row :=
  let w := weekly_agg df in
  zip3 Build_week_row w (otd_pct_col w) (review_rolling_col w).

(** [read_csv] with [parse_dates] makes a datetime column of the purchase
    timestamps of a file that has at least one row; the column of a file
    without rows stays an object column.  Filtering keeps the kind of the
    column.  The demo frame of lines 40-49 has 5000 rows and a datetime
    column. *)
Definition has_rows {A : Type} (table : list A) : bool :=
  match table with
  | [] => false
  | _ :: _ => true
  end.

(** [Series.dt]: only a datetime column has it. *)
Definition dt_accessor (datetimelike : bool) : outcome unit :=
  if datetimelike then Value tt
  else Raised "AttributeError: Can only use .dt accessor with datetimelike values".

(** [weekly] (lines 120-126) of a frame, given the kind of its purchase
    column. *)
Definition weekly (datetimelike : bool) (df : list order) : outcome (list week_row) :=
  let* _ := dt_accessor datetimelike in
  Value (weekly_frame df).

(** ** Baselines and KPI cards (lines 128-149) *)

Fixpoint insert_sorted (x : Q) (xs : list Q) : list Q :=
  match xs with
  | [] => [x]
  | y :: rest => if Qle_bool x y then x :: xs else y :: insert_sorted x rest
  end.

Definition sort_values (xs : list Q) : list Q := fold_right insert_sorted [] xs.

(** The quantile of a non-empty array by linear interpolation (numpy's
    default method): the virtual index is [q/100 * (n-1)]. *)
Definition percentile_linear (xs : list Q) (q : Q) : Q :=
  let arr := sort_values xs in
  let n := length arr in
  let vi := (q / 100 * q_of_nat (n - 1))%Q in
  let lo := Z.to_nat (Qfloor vi) in
  let hi := Nat.min (lo + 1) (n - 1) in
  let gamma := (vi - inject_Z (Qfloor vi))%Q in
  let a := nth lo arr 0%Q in
  let b := nth hi arr 0%Q in
  (a + (b - a) * gamma)%Q.

(** [np.nanpercentile(a, q)]: a percentile outside [0, 100] raises
    ValueError; an empty array, and an array of NaN only, give NaN (with a
    RuntimeWarning); otherwise the percentile of the non-NaN entries. *)
Definition nanpercentile (a : list num) (q : Q) : outcome num :=
  if Qle_bool 0 q && Qle_bool q 100 then
    match dropna a with
    | [] => Value NaN
    | xs => Value (Some (percentile_linear xs q))
    end
  else Raised "ValueError: Percentiles must be in the range [0, 100]".

(** [Series.dropna()] as a column of cells again. *)
Definition dropna_col (col : list num) : list num := map Some (dropna col).

(** [Series.notna().any()]. *)
Definition notna_any (col : list num) : bool :=
  existsb (fun c => match c with Some _ => true | None => false end) col.

Definition baseline_otd (w : list week_row) : num :=
  series_mean (map otd_pct w).

Definition baseline_p90 (df : list order) : outcome num :=
  nanpercentile (dropna_col (map delivery_time_days df)) 90.

Definition is_one (c : num) : bool :=
  match c with
  | Some q => Qeq_bool q 1
  | None => false
  end.

(** [int(df90[df90["on_time"]==1]["order_id"].nunique())]. *)
Definition nsm_value (df : list order) : nat :=
  nunique (map order_id (List.filter (fun r => is_one (on_time r)) df)).

(** [df90['on_time'].mean()*100]. *)
Definition otd_90 (df : list order) : num :=
  num_mul (series_mean (map on_time df)) (Some 100%Q).

Definition p90 (df : list order) : outcome num :=
  if notna_any (map delivery_time_days df)
  then nanpercentile (dropna_col (map delivery_time_days df)) 90
  else Value NaN.

(** ** Segments and the impact model *)

(** A row of [segments_summary.csv]; the column each field stands for is
    given beside it. *)
Record segment : Type := {
  seg_name : option string;      (* "سگمنت" *)
  seg_rule : option string;      (* "قاعده (قابل تفسیر)" *)
  seg_size : num;                (* "اندازه" *)
  seg_otd : num;                 (* "OTD" *)
  seg_p90 : num;                 (* "زمان تحویل (p90)" *)
  seg_repeat : num;              (* "تکرار خرید ۹۰روزه" *)
  seg_gmv : num;                 (* "GMV/90d" *)
  seg_play : option string       (* "بازی پیشنهادی (Play)" *)
}.

(** A row of [impact_models.csv]. *)
Record impact_row : Type := {
  imp_segment : option string;   (* "سگمنت" *)
  imp_scenario : option string;  (* "سناریو" *)
  gmv_base : num;                (* "GMV پایه (۹۰ روز)" *)
  orders_90d : num;              (* "سفارش‌ها (۹۰ روز)" *)
  aov : num;                     (* "AOV" *)
  uplift_gmv_pct : num;          (* "uplift_gmv_%" *)
  cost_per_order : num;          (* "cost_per_order" *)
  take_rate : num;               (* "take_rate" *)
  incr_gmv : num;                (* "افزایش GMV (۹۰ روز)" *)
  platform_share : num;          (* "سهم پلتفرم از افزایش GMV" *)
  total_cost : num;              (* "هزینه کل" *)
  net_effect : num               (* "خالص اثر بر پلتفرم" *)
}.

Definition num_sub (a b : num) : num :=
  match a, b with
  | Some x, Some y => Some (x - y)%Q
  | _, _ => NaN
  end.

(** Division of cells; a zero divisor gives NaN here (a double would give
    an infinity for a non-zero dividend). *)
Definition num_div (a b : num) : num :=
  match a, b with
  | Some x, Some y => if Qeq_bool y 0 then NaN else Some (x / y)%Q
  | _, _ => NaN
  end.

(** [Series.round(2)]: to two decimals, halves to the even neighbour. *)
Definition round2 (a : num) : num :=
  match a with
  | Some x =>
      let y := (x * 100)%Q in
      let f := Qfloor y in
      let frac := (y - inject_Z f)%Q in
      let up :=
        match Qcompare frac (1 # 2) with
        | Lt => false
        | Gt => true
        | Eq => Z.odd f
        end in
      Some (inject_Z (if up then f + 1 else f) / 100)%Q
  | None => NaN
  end.

(** [recalc(row)] (lines 81-86): the four derived cells of a row. *)
Definition recalc (row : impact_row) : num * num * num * num :=
  let incr := num_mul (gmv_base row) (num_div (uplift_gmv_pct row) (Some 100%Q)) in
  let plat := num_mul incr (take_rate row) in
  let cost := num_mul (orders_90d row) (cost_per_order row) in
  let net := num_sub plat cost in
  (incr, plat, cost, net).

(** [impact[[...]] = impact.apply(recalc, axis=1)] on one row. *)
Definition apply_recalc (row : impact_row) : impact_row :=
  let '(incr, plat, cost, net) := recalc row in
  {| imp_segment := imp_segment row;
     imp_scenario := imp_scenario row;
     gmv_base := gmv_base row;
     orders_90d := orders_90d row;
     aov := aov row;
     uplift_gmv_pct := uplift_gmv_pct row;
     cost_per_order := cost_per_order row;
     take_rate := take_rate row;
     incr_gmv := incr;
     platform_share := plat;
     total_cost := cost;
     net_effect := net |}.

Definition optimistic_scenario : string := "امیدی".
Definition base_scenario : string := "پایه".
Definition pessimistic_scenario : string := "بدبینانه".

(** The frame built at lines 66-79 for one segment: the segment repeated
    three times against the cycling scenario, uplift, cost and take-rate
    lists, the derived columns still 0. *)
Definition demo_impact_rows (s : segment) : list impact_row :=
  map (fun '(scenario, uplift, cost) =>
         {| imp_segment := seg_name s;
            imp_scenario := Some scenario;
            gmv_base := seg_gmv s;
            orders_90d := seg_size s;
            aov := round2 (num_div (seg_gmv s) (seg_size s));
            uplift_gmv_pct := Some uplift;
            cost_per_order := Some cost;
            take_rate := Some 0.12%Q;
            incr_gmv := Some 0%Q;
            platform_share := Some 0%Q;
            total_cost := Some 0%Q;
            net_effect := Some 0%Q |})
      [ (optimistic_scenario, 6%Q, 0.8%Q);
        (base_scenario, 3%Q, 0.6%Q);
        (pessimistic_scenario, 0.5%Q, 0.4%Q) ].

(** The rows of the demo impact table (lines 66-87). *)
Definition demo_impact_frame (seg : list segment) : list impact_row :=
  map apply_recalc (flat_map demo_impact_rows seg).

(** The demo impact table (lines 66-87).  On a segment table without rows
    [impact.apply(recalc, axis=1)] returns the frame itself, with all of
    its columns, and the assignment to the four derived columns of line 87
    raises. *)
Definition demo_impact (seg : list segment) : outcome (list impact_row) :=
  if has_rows seg then Value (demo_impact_frame seg)
  else Raised "ValueError: Columns must be same length as key".

(** The demo segments (lines 53-62). *)
Definition demo_segment (name rule : string) (size otd p90d rep gmv : Q)
    (play : string) : segment :=
  {| seg_name := Some name; seg_rule := Some rule; seg_size := Some size;
     seg_otd := Some otd; seg_p90 := Some p90d; seg_repeat := Some rep;
     seg_gmv := Some gmv; seg_play := Some play |}.

Definition demo_segments : list segment :=
  [ demo_segment "S1 مسیر سریع شهری / Urban Fast-Track" "state in {SP,RJ} & Top10"
      2300 95.2 11.8 22.0 2300000 "Express if p90>7d";
    demo_segment "S2 مسیرهای پرریسک / Long-tail Risk States" "low OTD states & Top10"
      1800 92.0 12.3 14.0 1700000 "ETA+Suppress backorder";
    demo_segment "S3 مشتریان تکراری / Repeat Loyalists" "repeat_flag_90d=1"
      1200 94.8 14.0 41.0 1200000 "Coupon next order";
    demo_segment "S4 مشتریان تازه‌وارد / Newcomers" "orders_count_90d=1"
      2600 94.2 14.8 0.0 2500000 "First-order assurance";
    demo_segment "S5 اقلام سنگین‌وزن / Heavy-Freight" "freight top 10%"
      900 95.6 20.1 9.0 1000000 "Carrier switch / weight cap" ].

(** ** Net gain and the segment rollup (lines 147-148, 185-198) *)

Definition is_base (r : impact_row) : bool :=
  bool_decide (imp_scenario r = Some base_scenario).

(** [impact[impact["سناریو"]=="پایه"]]. *)
Definition impact_base (impact : list impact_row) : list impact_row :=
  List.filter is_base impact.

(** [impact_base["خالص اثر بر پلتفرم"].sum()]. *)
Definition net_gain (base : list impact_row) : Q :=
  series_sum (map net_effect base).

(** Group keys that are text, in increasing order. *)
Fixpoint insert_name (k : string) (ks : list string) : list string :=
  match ks with
  | [] => [k]
  | x :: rest =>
      if String.ltb k x then k :: ks
      else if String.eqb k x then ks
      else x :: insert_name k rest
  end.

Definition group_names (keys : list (option string)) : list string :=
  fold_right insert_name [] (dropna keys).

Definition segment_rows (rows : list impact_row) (name : string) : list impact_row :=
  List.filter (fun r => bool_decide (imp_segment r = Some name)) rows.

(** [base_impact], from [impact_base]: one row per segment name with the
    sum of its net platform effect. *)
Definition base_impact (base : list impact_row) : list (string * Q) :=
  map (fun name => (name, series_sum (map net_effect (segment_rows base name))))
      (group_names (map imp_segment base)).

Fixpoint lookup_name {A : Type} (name : string) (table : list (string * A)) : option A :=
  match table with
  | [] => None
  | (k, v) :: rest => if String.eqb k name then Some v else lookup_name name rest
  end.

(** A row of [seg_view_rows]: the segment's own columns and the joined one. *)
Record seg_view_row : Type := {
  sv_segment : segment;
  expected_effect : num          (* "اثر ۹۰ روزهٔ مورد انتظار" *)
}.

(** [seg.merge(base_impact, on="سگمنت", how="left")]: every segment row
    once, in order; the joined cell is missing without a match. *)
Definition merge_rows (seg : list segment) (sums : list (string * Q)) : list seg_view_row :=
  map (fun s =>
         {| sv_segment := s;
            expected_effect :=
              match seg_name s with
              | Some name => lookup_name name sums
              | None => NaN
              end |})
      seg.

Definition seg_view_rows (seg : list segment) (sums : list (string * Q)) : list seg_view_row :=
  merge_rows seg sums.

(** The key check of [merge]: a key column that has rows and no text in
    any of them is read as a float column, and [merge] refuses to join it
    with a key column of text; the check is skipped when one of the two
    frames has no row. *)
Definition merge_keys (left : list (option string)) (right : list string) : outcome unit :=
  if has_rows left && negb (existsb notna left) && has_rows right
  then Raised "ValueError: You are trying to merge on float64 and object columns"
  else Value tt.

Definition merge_left (seg : list segment) (sums : list (string * Q))
  : outcome (list seg_view_row) :=
  let* _ := merge_keys (map seg_name seg) (map fst sums) in
  Value (merge_rows seg sums).

(** [seg_view = seg.merge(base_impact, on="سگمنت", how="left")] (line 188). *)
Definition seg_view (seg : list segment) (sums : list (string * Q))
  : outcome (list seg_view_row) :=
  merge_left seg sums.

(** [seg_view_rows[seg_cols]]: the displayed columns. *)
Definition seg_cols (r : seg_view_row)
  : option string * num * num * num * option string * num :=
  let s := sv_segment r in
  (seg_name s, seg_size s, seg_otd s, seg_repeat s, seg_play s, expected_effect r).

(** ** Policy log and incidents *)

(** A row of [ffd_logs.csv]. *)
Record log_entry : Type := {
  log_timestamp : timestamp;
  node : option string;
  guardrail_fired : option Z
}.

(** A row of [incidents.csv]. *)
Record incident : Type := {
  incident_id : option Z;
  opened_at : timestamp;
  severity : option string;
  title : option string;
  status : option string
}.

(** [ffd[ffd["timestamp"] >= (ffd["timestamp"].max() - pd.Timedelta(days=7))]]. *)
Definition last7 (ffd : list log_entry) : list log_entry :=
  let cutoff := ts_minus_days (series_max (map log_timestamp ffd)) 7 in
  List.filter (fun e => ts_le cutoff (log_timestamp e)) ffd.

(** [Series.count()]: the non-missing cells. *)
Definition series_count {A : Type} (col : list (option A)) : nat :=
  length (dropna col).

(** [last7.groupby("node")["timestamp"].count().reset_index()]. *)
Definition node_counts (l7 : list log_entry) : list (string * nat) :=
  map (fun k =>
         (k, series_count
               (map log_timestamp
                    (List.filter (fun e => bool_decide (node e = Some k)) l7))))
      (group_names (map node l7)).

(** [last7.groupby("guardrail_fired")["timestamp"].count().reset_index()]. *)
Definition gr_counts (l7 : list log_entry) : list (Z * nat) :=
  map (fun k =>
         (k, series_count
               (map log_timestamp
                    (List.filter (fun e => bool_decide (guardrail_fired e = Some k)) l7))))
      (group_keys (map guardrail_fired l7)).

(** [sort_values("fires", ascending=False)]: decreasing counts, rows with
    equal counts in the order of the frame.  A row is placed in front of
    the rows that follow it in the frame unless one of them has a larger
    count. *)
Fixpoint insert_by_fires (x : string * nat) (xs : list (string * nat)) : list (string * nat) :=
  match xs with
  | [] => [x]
  | y :: rest =>
      if (snd x <? snd y)%nat then y :: insert_by_fires x rest else x :: xs
  end.

Definition sort_by_fires (xs : list (string * nat)) : list (string * nat) :=
  fold_right insert_by_fires [] xs.

(** [gr_counts["guardrail_fired"].map({0:"No",1:"Yes"})]: a flag outside
    the dictionary maps to a missing label. *)
Definition guardrail_label (flag : Z) : option string :=
  if flag =? 0 then Some "No"
  else if flag =? 1 then Some "Yes"
  else None.

Definition gr_labels (counts : list (Z * nat)) : list (option string) :=
  map (fun r => guardrail_label (fst r)) counts.

(** [gr_counts[["label","count"]]] once the label column is there. *)
Definition gr_view (counts : list (Z * nat)) : list (option string * nat) :=
  combine (gr_labels counts) (map snd counts).

(** [str.lower()] on the letters A-Z; other characters cannot become one
    of the letters of "open". *)
Definition lower_ascii (c : ascii) : ascii :=
  let n := nat_of_ascii c in
  if ((65 <=? n) && (n <=? 90))%nat then ascii_of_nat (n + 32) else c.

Fixpoint str_lower (s : string) : string :=
  match s with
  | EmptyString => EmptyString
  | String c rest => String (lower_ascii c) (str_lower rest)
  end.

Definition is_open (i : incident) : bool :=
  match status i with
  | Some s => String.eqb (str_lower s) "open"
  | None => false
  end.

(** [sort_values("opened_at", ascending=False)]: latest first, NaT last,
    incidents with equal or missing opening times in the order of the
    frame. *)
Definition opened_before (a b : incident) : bool :=
  match opened_at a, opened_at b with
  | Some x, Some y => x <? y
  | None, Some _ => true
  | _, None => false
  end.

Fixpoint insert_by_opened (x : incident) (xs : list incident) : list incident :=
  match xs with
  | [] => [x]
  | y :: rest =>
      if opened_before x y then y :: insert_by_opened x rest else x :: xs
  end.

Definition open_inc_rows (inc : list incident) : list incident :=
  fold_right insert_by_opened [] (List.filter is_open inc).

(** [Series.str]: a column that has rows and no text in any of them is
    read as a float column and has no [.str]. *)
Definition str_accessor (col : list (option string)) : outcome unit :=
  if has_rows col && negb (existsb notna col)
  then Raised "AttributeError: Can only use .str accessor with string values!"
  else Value tt.


(** ** The loader (lines 22-111) *)

(** What is on disk: for each of the five paths, the parsed content of the
    file when it exists. *)
Record disk : Type := {
  olist_clean_with_features_csv : option (list order);
  segments_summary_csv : option (list segment);
  impact_models_csv : option (list impact_row);
  ffd_logs_csv : option (list log_entry);
  incidents_csv : option (list incident)
}.

(** [read_csv_safe(path)]: the table when the path exists, else [None]. *)
Definition read_csv_safe {A : Type} (file : option A) : option A :=
  match file with
  | Some table => Some table
  | None => None
  end.

(** What [st.warning] and [st.info] put on the page. *)
Inductive level : Type := warning | info.

Definition notice : Type := level * string.

Record tables : Type := {
  t_clean : list order;
  t_seg : list segment;
  t_impact : list impact_row;
  t_ffd : list log_entry;
  t_inc : list incident
}.

(** The demo incidents (lines 103-110). *)
Definition demo_incidents (clean : list order) : list incident :=
  let latest := series_max (map order_purchase_timestamp clean) in
  [ {| incident_id := Some 101; opened_at := ts_minus_days latest 3;
       severity := Some "high"; title := Some "Carrier outage in PR";
       status := Some "open" |};
    {| incident_id := Some 102; opened_at := ts_minus_days latest 1;
       severity := Some "medium"; title := Some "API throttle on checkout";
       status := Some "open" |} ].

Section Loader.

(** The state of numpy's global random generator, and the two frames the
    loader draws from it. *)
Variable rng : Type.

(** Lines 40-49: the 5000 demo orders. *)
Variable demo_frame : rng -> list order * rng.

(** Lines 93-99: the 600 demo log entries, on the hours from [now] - 6
    days to [now]. *)
Variable demo_logs : Z -> rng -> list log_entry * rng.

Definition load_data (d : disk) (g : rng) : outcome (tables * list notice * rng) :=
  let clean := read_csv_safe (olist_clean_with_features_csv d) in
  let seg := read_csv_safe (segments_summary_csv d) in
  let impact := read_csv_safe (impact_models_csv d) in
  let ffd := read_csv_safe (ffd_logs_csv d) in
  let inc := read_csv_safe (incidents_csv d) in
  let '(clean, n1, g1) :=
    match clean with
    | Some c => (c, [], g)
    | None =>
        let '(c, g') := demo_frame g in
        (c, [(warning, "olist_clean_with_features.csv not found — using demo frame")], g')
    end in
  let '(seg, n2) :=
    match seg with
    | Some s => (s, [])
    | None =>
        (demo_segments, [(warning, "segments_summary.csv not found — using demo segments")])
    end in
  let* derived :=
    match impact with
    | Some i => Value (i, [])
    | None =>
        let* rows := demo_impact seg in
        Value (rows,
               [(warning, "impact_models.csv not found — using demo impact (base scenario)")])
    end in
  let '(impact, n3) := derived in
  let* logs :=
    match ffd with
    | Some f => Value (f, [], g1)
    | None =>
        (* pd.date_range raises when an end point is NaT *)
        match series_max (map order_purchase_timestamp clean) with
        | Some now =>
            let '(f, g') := demo_logs now g1 in
            Value (f, [(info, "ffd_logs.csv not found — generating demo logs")], g')
        | None => Raised "ValueError: Neither `start` nor `end` can be NaT"
        end
    end in
  let '(ffd, n4, g2) := logs in
  let inc :=
    match inc with
    | Some i => i
    | None => demo_incidents clean
    end in
  Value ({| t_clean := clean; t_seg := seg; t_impact := impact;
            t_ffd := ffd; t_inc := inc |},
         n1 ++ n2 ++ n3 ++ n4, g2).

End Loader.

(** ** The script after the load (lines 113-215)

    The frames live in a store; a variable of the script holds the address
    of its frame.  Indexing with a mask, [.copy()], [groupby(...).agg],
    [merge], [rename] and [sort_values] build a new frame; an assignment
    [frame[column] = ...] changes the frame at its address. *)

Inductive frame : Type :=
| Orders (datetimelike : bool) (rows : list order)
| Segments (rows : list segment)
| ImpactModel (rows : list impact_row)
| PolicyLog (rows : list log_entry)
| Incidents (rows : list incident)
| Weekly (rows : list week_agg) (otd_pct_c review_rolling_c : option (list num))
| SegmentSums (rows : list (string * Q))
| SegView (rows : list seg_view_row)
| NodeCounts (rows : list (string * nat))
| GuardrailCounts (rows : list (Z * nat)) (label_c : option (list (option string))).

Definition store : Type := list frame.

Definition prog (A : Type) : Type := store -> outcome (A * store).

Definition ret {A : Type} (a : A) : prog A := fun h => Value (a, h).

Definition lift {A : Type} (m : outcome A) : prog A :=
  fun h =>
    match m with
    | Value a => Value (a, h)
    | Raised e => Raised e
    end.

Definition pbind {A B : Type} (m : prog A) (k : A -> prog B) : prog B :=
  fun h =>
    match m h with
    | Value (a, h') => k a h'
    | Raised e => Raised e
    end.

Notation "'let!' x ':=' m 'in' k" := (pbind m (fun x => k))
  (at level 10, x name, m at level 100, k at level 200).

(** A new frame, at a fresh address. *)
Definition new_frame (f : frame) : prog nat :=
  fun h => Value (length h, h ++ [f]).

Definition get_frame (l : nat) : prog frame :=
  fun h =>
    match h !! l with
    | Some f => Value (f, h)
    | None => Raised "NameError"
    end.

(** [frame[column] = ...]: the frame at [l] is changed in place. *)
Definition assign_column (l : nat) (upd : frame -> outcome frame) : prog unit :=
  fun h =>
    match h !! l with
    | Some f =>
        match upd f with
        | Value f' => Value (tt, <[l := f']> h)
        | Raised e => Raised e
        end
    | None => Raised "NameError"
    end.

Definition read_orders (l : nat) : prog (bool * list order) :=
  let! f := get_frame l in
  match f with
  | Orders datetimelike rows => ret (datetimelike, rows)
  | _ => lift (Raised "KeyError")
  end.

Definition read_segments (l : nat) : prog (list segment) :=
  let! f := get_frame l in
  match f with Segments rows => ret rows | _ => lift (Raised "KeyError") end.

Definition read_impact (l : nat) : prog (list impact_row) :=
  let! f := get_frame l in
  match f with ImpactModel rows => ret rows | _ => lift (Raised "KeyError") end.

Definition read_log (l : nat) : prog (list log_entry) :=
  let! f := get_frame l in
  match f with PolicyLog rows => ret rows | _ => lift (Raised "KeyError") end.

Definition read_incidents (l : nat) : prog (list incident) :=
  let! f := get_frame l in
  match f with Incidents rows => ret rows | _ => lift (Raised "KeyError") end.

Definition read_sums (l : nat) : prog (list (string * Q)) :=
  let! f := get_frame l in
  match f with SegmentSums rows => ret rows | _ => lift (Raised "KeyError") end.

Definition read_seg_view (l : nat) : prog (list seg_view_row) :=
  let! f := get_frame l in
  match f with SegView rows => ret rows | _ => lift (Raised "KeyError") end.

Definition read_node_counts (l : nat) : prog (list (string * nat)) :=
  let! f := get_frame l in
  match f with NodeCounts rows => ret rows | _ => lift (Raised "KeyError") end.

(** The finished [weekly] frame: both added columns must be there. *)
Definition read_weekly (l : nat) : prog (list week_row) :=
  let! f := get_frame l in
  match f with
  | Weekly rows (Some p) (Some r) => ret (zip3 Build_week_row rows p r)
  | _ => lift (Raised "KeyError")
  end.

(** [gr_counts[["label","count"]]]. *)
Definition read_gr_view (l : nat) : prog (list (option string * nat)) :=
  let! f := get_frame l in
  match f with
  | GuardrailCounts rows (Some labels) => ret (combine labels (map snd rows))
  | _ => lift (Raised "KeyError")
  end.

Definition set_otd_pct (f : frame) : outcome frame :=
  match f with
  | Weekly rows _ rr => Value (Weekly rows (Some (otd_pct_col rows)) rr)
  | _ => Raised "KeyError"
  end.

Definition set_review_rolling (f : frame) : outcome frame :=
  match f with
  | Weekly rows p _ => Value (Weekly rows p (Some (review_rolling_col rows)))
  | _ => Raised "KeyError"
  end.

Definition set_label (f : frame) : outcome frame :=
  match f with
  | GuardrailCounts rows _ =>
      Value (GuardrailCounts rows (Some (gr_labels rows)))
  | _ => Raised "KeyError"
  end.

(** What the page shows, with the two baselines the script computes. *)
Record page : Type := {
  var_baseline_otd : num;
  var_baseline_p90 : num;
  kpi_nsm_value : nat;
  kpi_otd : num;
  kpi_p90 : num;
  kpi_net_gain : Q;
  chart_weekly : list week_row;
  table_open_inc : list incident;
  table_segments : list (option string * num * num * num * option string * num);
  table_node_fires : list (string * nat);
  table_guardrails : list (option string * nat)
}.

(** Lines 116-215; the arguments are the addresses of the five loaded
    frames. *)
Definition dashboard (clean seg impact ffd inc : nat) : prog page :=
  (* time window and baseline *)
  let! c := read_orders clean in
  let! df90_v := new_frame (Orders (fst c) (df90 (snd c))) in
  let! df := read_orders df90_v in
  let d := snd df in
  let! _ := lift (dt_accessor (fst df)) in
  let! weekly_v := new_frame (Weekly (weekly_agg d) None None) in
  let! _ := assign_column weekly_v set_otd_pct in
  let! _ := assign_column weekly_v set_review_rolling in
  let! w := read_weekly weekly_v in
  let b_otd := baseline_otd w in
  let! b_p90 := lift (baseline_p90 d) in
  (* KPI cards *)
  let nsm := nsm_value d in
  let otd_v := otd_90 d in
  let! p90_v := lift (p90 d) in
  let! i := read_impact impact in
  let! impact_base_v := new_frame (ImpactModel (impact_base i)) in
  let! ib := read_impact impact_base_v in
  let gain := net_gain ib in
  (* open incidents *)
  let! n := read_incidents inc in
  let! _ := lift (str_accessor (map status n)) in
  let! open_inc_v := new_frame (Incidents (List.filter is_open n)) in
  let! o := read_incidents open_inc_v in
  let! open_inc_v := new_frame (Incidents (fold_right insert_by_opened [] o)) in
  let! opened := read_incidents open_inc_v in
  (* segments table *)
  let! base_impact_v := new_frame (SegmentSums (base_impact ib)) in
  let! sums := read_sums base_impact_v in
  let! s := read_segments seg in
  let! _ := lift (merge_keys (map seg_name s) (map fst sums)) in
  let! seg_view_v := new_frame (SegView (merge_rows s sums)) in
  let! sv := read_seg_view seg_view_v in
  let! seg_view_v := new_frame (SegView sv) in
  let! sv := read_seg_view seg_view_v in
  (* policy status *)
  let! f := read_log ffd in
  let! last7_v := new_frame (PolicyLog (last7 f)) in
  let! l7 := read_log last7_v in
  let! node_counts_v := new_frame (NodeCounts (node_counts l7)) in
  let! gr_counts_v := new_frame (GuardrailCounts (gr_counts l7) None) in
  let! nc := read_node_counts node_counts_v in
  let! _ := assign_column gr_counts_v set_label in
  let! gv := read_gr_view gr_counts_v in
  ret {| var_baseline_otd := b_otd;
         var_baseline_p90 := b_p90;
         kpi_nsm_value := nsm;
         kpi_otd := otd_v;
         kpi_p90 := p90_v;
         kpi_net_gain := gain;
         chart_weekly := w;
         table_open_inc := opened;
         table_segments := map seg_cols sv;
         table_node_fires := sort_by_fires nc;
         table_guardrails := gv |}.

(** The store right after the load: the five source frames at addresses
    0 to 4. *)
Definition loaded_store (t : tables) : store :=
  [ Orders (has_rows (t_clean t)) (t_clean t); Segments (t_seg t);
    ImpactModel (t_impact t);
    PolicyLog (t_ffd t); Incidents (t_inc t) ].

Section App.

Variable rng : Type.
Variable demo_frame : rng -> list order * rng.
Variable demo_logs : Z -> rng -> list log_entry * rng.

(** One run of the script: the notices of the loader and the page. *)
Definition app_py (d : disk) (g : rng) : outcome (list notice * page) :=
  let* loaded := load_data rng demo_frame demo_logs d g in
  let '(t, notices, _) := loaded in
  let* result := dashboard 0 1 2 3 4 (loaded_store t) in
  Value (notices, fst result).

End App.

(** * Vocabulary of the statements *)

(** [m] is the latest purchase timestamp of the table. *)
Definition latest_purchase (clean : list order) (m : Z) : Prop :=
  (exists r, In r clean /\ order_purchase_timestamp r = Some m) /\
  (forall r t, In r clean -> order_purchase_timestamp r = Some t -> t <= m).

(** A cell that holds the flag 0 or the flag 1. *)
Definition binary_flag (c : num) : Prop :=
  exists q, c = Some q /\ (q == 0 \/ q == 1)%Q.

(** The net platform effect the derivation formula gives for a row:
    baseline GMV x (uplift percentage / 100) x take rate - order count x
    cost per order. *)
Definition formula_net (r : impact_row) : num :=
  num_sub
    (num_mul (num_mul (gmv_base r) (num_div (uplift_gmv_pct r) (Some 100%Q)))
             (take_rate r))
    (num_mul (orders_90d r) (cost_per_order r)).

(** The rows of the impact table that match a segment: the scenario cell
    reads "پایه" (base) and the segment cell holds the name of the
    segment; a segment without a name matches none. *)
Definition matching_rows (impact : list impact_row) (s : segment) : list impact_row :=
  match seg_name s with
  | Some name =>
      List.filter
        (fun r => bool_decide (imp_scenario r = Some "پایه"%string) &&
                  bool_decide (imp_segment r = Some name))
        impact
  | None => []
  end.

(** [m] is the latest timestamp of the policy log. *)
Definition latest_fire (ffd : list log_entry) (m : Z) : Prop :=
  (exists e, In e ffd /\ log_timestamp e = Some m) /\
  (forall e t, In e ffd -> log_timestamp e = Some t -> t <= m).

(** A log with entries, each with a timestamp, no two of them more than
    [d] days apart. *)
Definition spans_days (d : Z) (ffd : list log_entry) : Prop :=
  ffd <> [] /\
  (forall e, In e ffd -> exists t, log_timestamp e = Some t) /\
  (forall e1 e2 t1 t2,
     In e1 ffd -> In e2 ffd ->
     log_timestamp e1 = Some t1 -> log_timestamp e2 = Some t2 ->
     t2 - t1 <= Timedelta d).

(** A column that [read_csv] gives as text: it has no row, or a row that
    holds text. *)
Definition text_column (col : list (option string)) : Prop :=
  col = [] \/ exists s, In (Some s) col.

(** Loaded tables on which the script after the load runs through: the
    order table has a row, the status column of the incidents is a text
    column, and the segment names are a text column unless no
    base-scenario row of the impact table names a segment. *)
Definition well_formed (t : tables) : Prop :=
  t_clean t <> [] /\
  text_column (map status (t_inc t)) /\
  (text_column (map seg_name (t_seg t)) \/
   base_impact (impact_base (t_impact t)) = []).

(** The page written as a function of the loaded tables, given the values
    [b] and [p] of the two percentile calls. *)
Definition page_of (t : tables) (b p : num) : page :=
  let d := df90 (t_clean t) in
  {| var_baseline_otd := baseline_otd (weekly_frame d);
     var_baseline_p90 := b;
     kpi_nsm_value := nsm_value d;
     kpi_otd := otd_90 d;
     kpi_p90 := p;
     kpi_net_gain := net_gain (impact_base (t_impact t));
     chart_weekly := weekly_frame d;
     table_open_inc := open_inc_rows (t_inc t);
     table_segments :=
       map seg_cols (seg_view_rows (t_seg t) (base_impact (impact_base (t_impact t))));
     table_node_fires := sort_by_fires (node_counts (last7 (t_ffd t)));
     table_guardrails := gr_view (gr_counts (last7 (t_ffd t))) |}.

(** The five files all present. *)
Definition full_disk (c : list order) (s : list segment) (i : list impact_row)
    (f : list log_entry) (n : list incident) : disk :=
  {| olist_clean_with_features_csv := Some c;
     segments_summary_csv := Some s;
     impact_models_csv := Some i;
     ffd_logs_csv := Some f;
     incidents_csv := Some n |}.

(** A program that, started in a store of at least [n] frames, leaves the
    first [n] frames as they were whenever it returns, with a result that
    satisfies [Q]. *)
Definition keeps {A : Type} (n : nat) (m : prog A) (Q : A -> Prop) : Prop :=
  forall h a h',
    (n <= length h)%nat -> m h = Value (a, h') ->
    (n <= length h')%nat /\ firstn n h' = firstn n h /\ Q a.


(** The number [groupby(key)["timestamp"].count()] gives for the key
    [k]. *)
Definition group_count {K : Type} `{EqDecision K} (key : log_entry -> option K)
    (l : list log_entry) (k : K) : nat :=
  series_count
    (map log_timestamp (List.filter (fun e => bool_decide (key e = Some k)) l)).

(** The order table the loader works with: the file when it is there, the
    demo frame drawn from the generator otherwise. *)
Definition orders_after_fallback (rng : Type) (demo_frame : rng -> list order * rng)
    (d : disk) (g : rng) : list order :=
  match olist_clean_with_features_csv d with
  | Some c => c
  | None => fst (demo_frame g)
  end.

(** The number of the four files with a notice that are absent. *)
Definition absent_with_notice (d : disk) : nat :=
  (if notna (olist_clean_with_features_csv d) then 0 else 1) +
  (if notna (segments_summary_csv d) then 0 else 1) +
  (if notna (impact_models_csv d) then 0 else 1) +
  (if notna (ffd_logs_csv d) then 0 else 1).

(** The value a cell adds to a sum: missing cells add nothing. *)
Definition cell_value (c : num) : Q :=
  match c with
  | Some q => q
  | None => 0%Q
  end.

(** * Sample inputs *)

Definition sample_order (id : Z) (t : timestamp) (flag score days : num) : order :=
  {| order_id := Some (IdNum id);
     order_purchase_timestamp := t;
     order_delivered_customer_date := NaT;
     order_estimated_delivery_date := NaT;
     on_time := flag;
     delivery_time_days := days;
     review_score_mean := score;
     gross_revenue := NaN |}.

(** Monday 2017-01-02 00:00, in nanoseconds. *)
Definition monday : Z := 17168 * day_ns.

(** Three orders of one week and one of the week after. *)
Definition sample_orders : list order :=
  [ sample_order 1 (Some (monday + 5)) (Some 1%Q) (Some 5%Q) (Some 3%Q);
    sample_order 2 (Some (monday + Timedelta 3)) (Some 0%Q) NaN (Some 10%Q);
    sample_order 2 (Some (monday + Timedelta 6)) (Some 1%Q) (Some 2%Q) NaN;
    sample_order 3 (Some (monday + Timedelta 8)) (Some 1%Q) (Some 4%Q) (Some 7%Q) ].

Definition sample_week : week_row :=
  Eval vm_compute in
    nth 0 (weekly_frame (df90 sample_orders))
        {| agg := {| week := 0; orders := 0; otd := NaN; review := NaN |};
           otd_pct := NaN; review_rolling := NaN |}.

(** One order, placed in a week of its own, that carries no review score. *)
Definition unreviewed_orders : list order :=
  [ sample_order 7 (Some (monday + 5)) (Some 1%Q) NaN (Some 3%Q) ].

(** An impact file with one base row whose net effect cell (0) is not what
    the formula gives for its other cells (1000 x 10/100 x 0.5 - 10 x 1). *)
Definition inconsistent_impact : list impact_row :=
  [ {| imp_segment := Some "A";
       imp_scenario := Some base_scenario;
       gmv_base := Some 1000%Q;
       orders_90d := Some 10%Q;
       aov := Some 100%Q;
       uplift_gmv_pct := Some 10%Q;
       cost_per_order := Some 1%Q;
       take_rate := Some 0.5%Q;
       incr_gmv := Some 100%Q;
       platform_share := Some 50%Q;
       total_cost := Some 10%Q;
       net_effect := Some 0%Q |} ].

(** The demo impact rows of the first demo segment, and their base sum. *)
Definition sample_impact : list impact_row :=
  demo_impact_frame (firstn 1 demo_segments).

Definition sample_sum : string * Q :=
  Eval vm_compute in nth 0 (base_impact (impact_base sample_impact)) (EmptyString, 0%Q).

(** Two firings of node A within a day, the guardrail tripped in both. *)
Definition sample_log : list log_entry :=
  [ {| log_timestamp := Some monday; node := Some "A"; guardrail_fired := Some 1 |};
    {| log_timestamp := Some (monday + Timedelta 1); node := Some "A";
       guardrail_fired := Some 1 |} ].

(** An order table whose purchase timestamps are all missing. *)
Definition undated_orders : list order :=
  [ sample_order 1 NaT (Some 1%Q) (Some 5%Q) (Some 3%Q) ].

(** Two orders of the window, neither delivered yet. *)
Definition undelivered_orders : list order :=
  [ sample_order 1 (Some (monday + 5)) (Some 1%Q) (Some 5%Q) NaN;
    sample_order 2 (Some (monday + Timedelta 3)) (Some 0%Q) NaN NaN ].

(** The loaded tables of a run on sample files. *)
Definition sample_tables : tables :=
  {| t_clean := sample_orders;
     t_seg := demo_segments;
     t_impact := sample_impact;
     t_ffd := sample_log;
     t_inc := demo_incidents sample_orders |}.

(** The last order of [sample_orders], bought at its latest timestamp. *)
Definition latest_sample_order : order :=
  sample_order 3 (Some (monday + Timedelta 8)) (Some 1%Q) (Some 4%Q) (Some 7%Q).

(** Three deliveries that took 3, 10 and 7 days. *)
Definition delivered_orders : list order :=
  [ sample_order 1 (Some (monday + 5)) (Some 1%Q) (Some 5%Q) (Some 3%Q);
    sample_order 2 (Some (monday + Timedelta 1)) (Some 0%Q) NaN (Some 10%Q);
    sample_order 3 (Some (monday + Timedelta 2)) (Some 1%Q) (Some 4%Q) (Some 7%Q) ].

(** Three incidents: one closed, two open of which one has no opening
    time. *)
Definition sample_incidents : list incident :=
  [ {| incident_id := Some 1; opened_at := Some monday; severity := Some "low";
       title := Some "Label printer offline"; status := Some "closed" |};
    {| incident_id := Some 2; opened_at := NaT; severity := Some "high";
       title := Some "Carrier outage"; status := Some "OPEN" |};
    {| incident_id := Some 3; opened_at := Some (monday + Timedelta 1);
       severity := Some "medium"; title := Some "API throttle";
       status := Some "Open" |} ].

(** A disk without any of the five files, and a generator that always
    draws the sample orders and the sample log. *)
Definition empty_disk : disk :=
  {| olist_clean_with_features_csv := None;
     segments_summary_csv := None;
     impact_models_csv := None;
     ffd_logs_csv := None;
     incidents_csv := None |}.

Definition sample_demo_frame (g : unit) : list order * unit := (sample_orders, g).

Definition sample_demo_logs (now : Z) (g : unit) : list log_entry * unit :=
  (sample_log, g).

Definition sample_load : tables * list notice * unit :=
  Eval vm_compute in
    match load_data unit sample_demo_frame sample_demo_logs empty_disk tt with
    | Value r => r
    | Raised _ =>
        ({| t_clean := []; t_seg := []; t_impact := []; t_ffd := []; t_inc := [] |},
         [], tt)
    end.

(** The base-scenario row of [sample_impact]. *)
Definition blank_impact_row : impact_row :=
  {| imp_segment := None; imp_scenario := None; gmv_base := NaN;
     orders_90d := NaN; aov := NaN; uplift_gmv_pct := NaN;
     cost_per_order := NaN; take_rate := NaN; incr_gmv := NaN;
     platform_share := NaN; total_cost := NaN; net_effect := NaN |}.

Definition sample_base_row : impact_row := nth 1 sample_impact blank_impact_row.

(** The first row of the segment view built from the demo segments and
    their demo impact rows. *)
Definition sample_view_row : seg_view_row :=
  nth 0 (seg_view_rows demo_segments
                  (base_impact (impact_base (demo_impact_frame demo_segments))))
      {| sv_segment := demo_segment "" "" 0 0 0 0 0 ""; expected_effect := NaN |}.

(** An impact file in which the first demo segment has a base row (net
    effect 7) and the second demo segment an optimistic row only (99). *)
Definition optimistic_only_impact : list impact_row :=
  [ {| imp_segment := Some "S1 مسیر سریع شهری / Urban Fast-Track";
       imp_scenario := Some base_scenario;
       gmv_base := NaN; orders_90d := NaN; aov := NaN; uplift_gmv_pct := NaN;
       cost_per_order := NaN; take_rate := NaN; incr_gmv := NaN;
       platform_share := NaN; total_cost := NaN; net_effect := Some 7%Q |};
    {| imp_segment := Some "S2 مسیرهای پرریسک / Long-tail Risk States";
       imp_scenario := Some optimistic_scenario;
       gmv_base := NaN; orders_90d := NaN; aov := NaN; uplift_gmv_pct := NaN;
       cost_per_order := NaN; take_rate := NaN; incr_gmv := NaN;
       platform_share := NaN; total_cost := NaN; net_effect := Some 99%Q |} ].

(** * Properties *)

(** ** Accessors and key checks *)

Lemma existsb_notna {A : Type} (col : list (option A)) :
  existsb notna col = true <-> exists x, In (Some x) col.
Proof.
  rewrite existsb_exists. split.
  - intros ([x|] & Hin & Hx); [eauto|discriminate].
  - intros (x & Hin). exists (Some x). auto.
Qed.

Lemma has_rows_true {A : Type} (l : list A) : has_rows l = true <-> l <> [].
Proof. destruct l; simpl; split; congruence. Qed.

Lemma dt_accessor_rows (clean : list order) :
  dt_accessor (has_rows clean) = Value tt <-> clean <> [].
Proof.
  rewrite <- has_rows_true. unfold dt_accessor.
  destruct (has_rows clean); split; congruence.
Qed.

Lemma text_column_dec (col : list (option string)) :
  text_column col <-> has_rows col && negb (existsb notna col) = false.
Proof.
  unfold text_column. rewrite andb_false_iff, negb_false_iff, existsb_notna.
  destruct col; simpl; split; intros [H | H]; auto; try congruence.
Qed.

Lemma str_accessor_text (col : list (option string)) :
  str_accessor col = Value tt <-> text_column col.
Proof.
  rewrite text_column_dec. unfold str_accessor.
  destruct (has_rows col && negb (existsb notna col)); split; congruence.
Qed.

Lemma merge_keys_text (left : list (option string)) (right : list string) :
  merge_keys left right = Value tt <-> text_column left \/ right = [].
Proof.
  rewrite text_column_dec. unfold merge_keys.
  destruct (has_rows left && negb (existsb notna left)); simpl.
  - destruct right; simpl; split; try congruence; auto.
    intros [H | H]; congruence.
  - split; auto.
Qed.

(** ** The maximum of a datetime column *)

Lemma series_max_upper (col : list timestamp) (t : Z) :
  In (Some t) col -> exists m, series_max col = Some m /\ t <= m.
Proof.
  induction col as [|c col IH]; simpl; [tauto|].
  intros [-> | Hin].
  - destruct (series_max col) as [m|]; simpl; eexists; split; eauto; lia.
  - destruct (IH Hin) as (m & -> & Hle).
    destruct c as [x|]; simpl; eexists; split; eauto; lia.
Qed.

Lemma series_max_attained (col : list timestamp) (m : Z) :
  series_max col = Some m -> In (Some m) col.
Proof.
  revert m. induction col as [|c col IH]; simpl; intros m; [discriminate|].
  destruct c as [x|], (series_max col) as [y|]; simpl; intros [= <-]; auto.
  destruct (Z.max_spec x y) as [[_ ->] | [_ ->]]; auto.
Qed.

Lemma end_date_latest (clean : list order) (m : Z) :
  end_date clean = Some m <-> latest_purchase clean m.
Proof.
  unfold end_date, latest_purchase. split.
  - intros Hmax. split.
    + apply series_max_attained in Hmax.
      apply in_map_iff in Hmax as (r & Hr & Hin). eauto.
    + intros r t Hin Ht.
      destruct (series_max_upper (map order_purchase_timestamp clean) t)
        as (m' & Hm' & Hle).
      { rewrite <- Ht. now apply in_map. }
      congruence.
  - intros [(r & Hin & Hr) Hub].
    destruct (series_max_upper (map order_purchase_timestamp clean) m)
      as (m' & Hm' & Hle).
    { rewrite <- Hr. now apply in_map. }
    pose proof (series_max_attained _ _ Hm') as Hatt.
    apply in_map_iff in Hatt as (r' & Hr' & Hin').
    specialize (Hub r' m' Hin' Hr'). rewrite Hm'. f_equal. lia.
Qed.

(** C1. The 90-day window holds exactly the rows of the order table whose
    purchase timestamp [t] satisfies [m - 90 days <= t <= m], where [m] is
    the latest purchase timestamp of the table; both ends are included. *)
Theorem df90_closed_interval (clean : list order) (r : order) :
  In r (df90 clean) <->
  In r clean /\
  exists t m,
    order_purchase_timestamp r = Some t /\
    latest_purchase clean m /\
    m - Timedelta 90 <= t <= m.
Proof.
  unfold df90. rewrite filter_In. unfold between, start_90, ts_le. split.
  - intros [Hin Hb]. split; [exact Hin|].
    destruct (end_date clean) as [m|] eqn:Hm; simpl in Hb; [|discriminate].
    destruct (order_purchase_timestamp r) as [t|]; [|discriminate].
    apply andb_true_iff in Hb as [H1 H2].
    apply Z.leb_le in H1, H2.
    exists t, m. split; [reflexivity|]. split; [now apply end_date_latest|lia].
  - intros [Hin (t & m & Ht & Hm & Hlo & Hhi)]. split; [exact Hin|].
    apply end_date_latest in Hm. rewrite Hm, Ht. simpl.
    apply andb_true_iff. split; now apply Z.leb_le.
Qed.

(** ** Columns, keys and groups *)

Lemma dropna_Some {A : Type} (xs : list A) : dropna (map Some xs) = xs.
Proof. induction xs; simpl; congruence. Qed.

Lemma in_dropna {A : Type} (col : list (option A)) (x : A) :
  In x (dropna col) <-> In (Some x) col.
Proof.
  induction col as [|[y|] col IH]; simpl; [tauto| |].
  - rewrite IH. split; intros [H|H]; auto; left; congruence.
  - rewrite IH. split; [auto|]. intros [H|H]; [discriminate|auto].
Qed.

Lemma in_insert_key (k x : Z) (ks : list Z) :
  In x (insert_key k ks) <-> x = k \/ In x ks.
Proof.
  induction ks as [|y ks IH]; simpl; [intuition|].
  destruct (k <? y) eqn:Hlt; [simpl; intuition|].
  destruct (k =? y) eqn:Heq.
  - apply Z.eqb_eq in Heq. subst. simpl. intuition.
  - simpl. rewrite IH. intuition.
Qed.

Lemma in_group_keys (keys : list timestamp) (k : Z) :
  In k (group_keys keys) <-> In (Some k) keys.
Proof.
  unfold group_keys. rewrite <- in_dropna.
  induction (dropna keys) as [|y ks IH]; simpl; [tauto|].
  rewrite in_insert_key, IH. intuition.
Qed.

Lemma in_zip3_map {A B C D : Type} (f : A -> B -> C -> D) (g : A -> B)
    (xs : list A) (zs : list C) (d : D) :
  In d (zip3 f xs (map g xs) zs) ->
  exists x z, In x xs /\ d = f x (g x) z.
Proof.
  revert zs. induction xs as [|x xs IH]; intros zs; simpl; [tauto|].
  destruct zs as [|z zs]; simpl; [tauto|].
  intros [<- | Hin]; [eauto|].
  destruct (IH zs Hin) as (x' & z' & Hx & Hd). eauto.
Qed.

(** The rows of [weekly]: one per week start that occurs in the frame,
    aggregated over the rows of that week. *)
Lemma weekly_row_inv (df : list order) (w : week_row) :
  In w (weekly_frame df) ->
  (exists r, In r df /\ week_of r = Some (week (agg w))) /\
  orders (agg w) = nunique (map order_id (week_rows df (week (agg w)))) /\
  otd (agg w) = series_mean (map on_time (week_rows df (week (agg w)))) /\
  review (agg w) = series_mean (map review_score_mean (week_rows df (week (agg w)))) /\
  otd_pct w = num_mul (otd (agg w)) (Some 100%Q).
Proof.
  unfold weekly_frame, otd_pct_col. intros Hin.
  apply in_zip3_map in Hin as (a & z & Ha & ->). simpl.
  unfold weekly_agg in Ha. apply in_map_iff in Ha as (k & <- & Hk). simpl.
  apply in_group_keys, in_map_iff in Hk as (r & Hr & Hin).
  repeat split; eauto.
Qed.

Lemma weekly_inv (datetimelike : bool) (df : list order) (ws : list week_row) :
  weekly datetimelike df = Value ws ->
  datetimelike = true /\ ws = weekly_frame df.
Proof.
  unfold weekly, dt_accessor. destruct datetimelike; simpl; [|discriminate].
  intros [= <-]. auto.
Qed.

Lemma weekly_datetime (df : list order) :
  weekly true df = Value (weekly_frame df).
Proof. reflexivity. Qed.

(** [nunique] counts a duplicate-free enumeration of the ids present. *)
Lemma nunique_spec {A : Type} `{EqDecision A} (col : list (option A)) :
  exists ids : list A,
    NoDup ids /\ (forall i, In i ids <-> In (Some i) col) /\
    nunique col = length ids.
Proof.
  exists (remove_dups (dropna col)). split; [apply NoDup_remove_dups|].
  split; [|reflexivity].
  intros i. rewrite <- in_dropna, <- !list_elem_of_In.
  apply elem_of_remove_dups.
Qed.

(** ** Sums and means of flags *)

Lemma q_of_nat_S (n : nat) : (q_of_nat (S n) == 1 + q_of_nat n)%Q.
Proof.
  unfold q_of_nat. rewrite Nat2Z.inj_succ, <- Z.add_1_l.
  now rewrite inject_Z_plus.
Qed.

Lemma q_of_nat_pos (n : nat) : (0 < n)%nat -> (0 < q_of_nat n)%Q.
Proof.
  intros Hn. unfold q_of_nat. change 0%Q with (inject_Z 0).
  rewrite <- Zlt_Qlt. lia.
Qed.

Lemma q_sum_unit_interval (xs : list Q) :
  (forall x, In x xs -> (x == 0 \/ x == 1)%Q) ->
  (0 <= q_sum xs /\ q_sum xs <= q_of_nat (length xs))%Q.
Proof.
  induction xs as [|x xs IH]; intros Hxs; simpl.
  - split; apply Qle_refl.
  - destruct IH as [IH0 IH1]; [intros; apply Hxs; now right|].
    rewrite q_of_nat_S.
    destruct (Hxs x (or_introl eq_refl)) as [-> | ->]; split; lra.
Qed.

Lemma mean_unit_interval (xs : list Q) :
  xs <> [] ->
  (forall x, In x xs -> (x == 0 \/ x == 1)%Q) ->
  (0 <= q_sum xs / q_of_nat (length xs) /\
   q_sum xs / q_of_nat (length xs) <= 1)%Q.
Proof.
  intros Hne Hxs. destruct (q_sum_unit_interval xs Hxs) as [H0 H1].
  assert (Hpos : (0 < q_of_nat (length xs))%Q).
  { apply q_of_nat_pos. destruct xs; [congruence|simpl; lia]. }
  split.
  - apply Qle_shift_div_l; [exact Hpos|]. lra.
  - apply Qle_shift_div_r; [exact Hpos|]. lra.
Qed.

(** ** Calendar weeks *)

Lemma week_start_floor (t : Z) :
  week_start t = 7 * day_ns * ((t + 3 * day_ns) / (7 * day_ns)) - 3 * day_ns.
Proof.
  unfold week_start.
  assert (HD : 0 < day_ns) by reflexivity.
  generalize dependent day_ns. intros D HD.
  rewrite (Z.mul_comm 7 D), <- Z.div_div by lia.
  rewrite Z.div_add by lia.
  set (d := t / D).
  pose proof (Z.div_mod (d + 3) 7 ltac:(lia)) as Hdm.
  nia.
Qed.

Lemma week_start_bounds (t : Z) :
  week_start t <= t < week_start t + Timedelta 7.
Proof.
  rewrite week_start_floor. unfold Timedelta.
  assert (HD : 0 < day_ns) by reflexivity.
  generalize dependent day_ns. intros D HD.
  pose proof (Z.div_mod (t + 3 * D) (7 * D) ltac:(lia)) as Hdm.
  pose proof (Z.mod_pos_bound (t + 3 * D) (7 * D) ltac:(lia)) as Hm.
  lia.
Qed.

Lemma week_start_same (t t0 : Z) :
  week_start t = week_start t0 <->
  week_start t0 <= t < week_start t0 + Timedelta 7.
Proof.
  split.
  - intros <-. apply week_start_bounds.
  - rewrite !week_start_floor. unfold Timedelta.
    assert (HD : 0 < day_ns) by reflexivity.
    generalize dependent day_ns. intros D HD Hb.
    set (q0 := (t0 + 3 * D) / (7 * D)) in *.
    assert (Hq : (t + 3 * D) / (7 * D) = q0).
    { symmetry. apply (Z.div_unique_pos _ _ _ (t + 3 * D - 7 * D * q0)); lia. }
    now rewrite Hq.
Qed.

(** A week start is a Monday midnight: a whole number of days, the day
    three days before a multiple of seven (day 0 is a Thursday). *)
Lemma week_start_monday (t : Z) :
  week_start t mod day_ns = 0 /\ (week_start t / day_ns + 3) mod 7 = 0.
Proof.
  unfold week_start.
  assert (HD : 0 < day_ns) by reflexivity.
  generalize dependent day_ns. intros D HD.
  set (d := t / D).
  rewrite Z.mod_mul, Z.div_mul by lia. split; [reflexivity|].
  pose proof (Z.div_mod (d + 3) 7 ltac:(lia)) as Hdm.
  replace (d - (d + 3) mod 7 + 3) with (((d + 3) / 7) * 7) by lia.
  apply Z.mod_mul. lia.
Qed.

(** ** Weekly on-time percentage and order count *)

Lemma binary_column (col : list num) :
  (forall c, In c col -> binary_flag c) ->
  exists flags,
    col = map Some flags /\ (forall x, In x flags -> (x == 0 \/ x == 1)%Q).
Proof.
  induction col as [|c col IH]; intros Hcol.
  - exists []. split; [reflexivity|]. intros x [].
  - destruct IH as (flags & -> & Hflags); [intros; apply Hcol; now right|].
    destruct (Hcol c (or_introl eq_refl)) as (q & -> & Hq).
    exists (q :: flags). split; [reflexivity|].
    intros x [<- | Hx]; auto.
Qed.

Lemma week_rows_iff (df : list order) (k : Z) (r : order) :
  In r (week_rows df k) <-> In r df /\ week_of r = Some k.
Proof.
  unfold week_rows. rewrite filter_In, bool_decide_eq_true. tauto.
Qed.

(** C2. For every row [w] of the weekly aggregation of the 90-day window,
    with [rows] the orders of the window whose purchase falls in the week
    starting at [week w] (a Monday midnight; the orders bought from it up
    to seven days later): the on-time percentage is 100 times the mean of
    the [on_time] flags of [rows]; when every flag of [rows] is 0 or 1 that
    percentage is a number in [0, 100]; and the order count is the number
    of distinct order ids of [rows]. *)
Theorem weekly_otd_pct_and_orders (clean : list order) (ws : list week_row)
    (w : week_row) :
  weekly (has_rows clean) (df90 clean) = Value ws ->
  In w ws ->
  let k := week (agg w) in
  let rows := week_rows (df90 clean) k in
  (k mod day_ns = 0 /\ (k / day_ns + 3) mod 7 = 0) /\
  (forall r, In r rows <->
     In r (df90 clean) /\
     exists t, order_purchase_timestamp r = Some t /\ k <= t < k + Timedelta 7) /\
  otd_pct w = num_mul (series_mean (map on_time rows)) (Some 100%Q) /\
  ((forall r, In r rows -> binary_flag (on_time r)) ->
   exists flags p,
     map on_time rows = map Some flags /\
     otd_pct w = Some p /\
     (p == q_sum flags / q_of_nat (length flags) * 100)%Q /\
     (0 <= p /\ p <= 100)%Q) /\
  (exists ids,
     NoDup ids /\
     (forall i, In i ids <-> exists r, In r rows /\ order_id r = Some i) /\
     orders (agg w) = length ids).
Proof.
  intros Hws Hw k rows. apply weekly_inv in Hws as [_ ->].
  destruct (weekly_row_inv _ _ Hw) as ((r0 & Hr0 & Hk0) & Hord & Hotd & _ & Hpct).
  fold k in Hk0, Hord, Hotd. fold rows in Hord, Hotd.
  assert (Hweek : exists t0, k = week_start t0).
  { unfold week_of in Hk0. destruct (order_purchase_timestamp r0) as [t0|];
      [|discriminate]. exists t0. congruence. }
  destruct Hweek as (t0 & Hkt0).
  split; [rewrite Hkt0; apply week_start_monday|].
  split.
  { intros r. unfold rows. rewrite week_rows_iff. unfold week_of.
    split.
    - intros [Hin Hr]. split; [exact Hin|].
      destruct (order_purchase_timestamp r) as [t|]; [|discriminate].
      exists t. split; [reflexivity|].
      injection Hr as Hr. rewrite Hkt0 in *. now apply week_start_same.
    - intros [Hin (t & -> & Hb)]. split; [exact Hin|]. f_equal.
      rewrite Hkt0 in *. now apply week_start_same. }
  split; [now rewrite Hpct, Hotd|].
  split.
  - intros Hflags.
    destruct (binary_column (map on_time rows)) as (flags & Hcol & Hbin).
    { intros c Hc. apply in_map_iff in Hc as (r & <- & Hr). auto. }
    assert (Hne : flags <> []).
    { intros ->. assert (Hin : In r0 rows) by (apply week_rows_iff; auto).
      destruct rows; [exact Hin|discriminate]. }
    destruct (mean_unit_interval flags Hne Hbin) as [Hlo Hhi].
    exists flags, (q_sum flags / q_of_nat (length flags) * 100)%Q.
    split; [exact Hcol|]. split.
    + rewrite Hpct, Hotd, Hcol. unfold series_mean. rewrite dropna_Some.
      destruct flags; [congruence|reflexivity].
    + split; [reflexivity|]. split; lra.
  - destruct (nunique_spec (map order_id rows)) as (ids & Hnd & Hids & Hlen).
    exists ids. split; [exact Hnd|]. split; [|now rewrite Hord].
    intros i. rewrite Hids, in_map_iff.
    split; intros (r & H1 & H2); eauto.
Qed.

Lemma weekly_otd_pct_and_orders_witness :
  weekly (has_rows sample_orders) (df90 sample_orders)
    = Value (weekly_frame (df90 sample_orders)) /\
  In sample_week (weekly_frame (df90 sample_orders)) /\
  exists p, otd_pct sample_week = Some p /\ (0 <= p /\ p <= 100)%Q.
Proof.
  assert (Hws : weekly (has_rows sample_orders) (df90 sample_orders)
                = Value (weekly_frame (df90 sample_orders))) by reflexivity.
  assert (Hin : In sample_week (weekly_frame (df90 sample_orders))).
  { vm_compute. left. reflexivity. }
  split; [exact Hws|]. split; [exact Hin|].
  destruct (weekly_otd_pct_and_orders sample_orders _ sample_week Hws Hin)
    as (_ & _ & _ & Hbounds & _).
  destruct Hbounds as (flags & p & _ & Hp & _ & Hrange).
  - intros r Hr. vm_compute in Hr.
    destruct Hr as [<- | [<- | [<- | []]]]; eexists; (split; [reflexivity|]);
      vm_compute; auto.
  - exists p. split; assumption.
Defined.

(** ** The rolling review average *)

Lemma zip3_agg (xs : list week_agg) (ys zs : list num) :
  length ys = length xs -> length zs = length xs ->
  map agg (zip3 Build_week_row xs ys zs) = xs.
Proof.
  revert ys zs. induction xs as [|x xs IH]; intros [|y ys] [|z zs]; simpl;
    try discriminate; try reflexivity.
  intros [= Hy] [= Hz]. now rewrite IH.
Qed.

Lemma zip3_nth {A B C D : Type} (f : A -> B -> C -> D)
    (xs : list A) (ys : list B) (zs : list C) (i : nat) (d : D) :
  nth_error (zip3 f xs ys zs) i = Some d ->
  exists x y z,
    nth_error xs i = Some x /\ nth_error ys i = Some y /\
    nth_error zs i = Some z /\ d = f x y z.
Proof.
  revert ys zs i. induction xs as [|x xs IH]; intros ys zs i; simpl.
  - destruct i; discriminate.
  - destruct ys as [|y ys]; [destruct i; discriminate|].
    destruct zs as [|z zs]; [destruct i; discriminate|].
    destruct i as [|i]; simpl.
    + intros [= <-]. eauto 7.
    + apply IH.
Qed.

Lemma length_rolling_mean (window min_periods : nat) (col : list num) :
  length (rolling_mean window min_periods col) = length col.
Proof. unfold rolling_mean. now rewrite length_map, length_seq. Qed.

Lemma weekly_reviews (df : list order) :
  map (fun w => review (agg w)) (weekly_frame df) = map review (weekly_agg df).
Proof.
  rewrite <- (map_map agg review). unfold weekly_frame. rewrite zip3_agg; [reflexivity| |].
  - unfold otd_pct_col. apply length_map.
  - unfold review_rolling_col. now rewrite length_rolling_mean, length_map.
Qed.

Lemma series_mean_NaN (col : list num) :
  series_mean col = NaN <-> forall c, In c col -> c = NaN.
Proof.
  unfold series_mean. split.
  - intros Hm [x|] Hc; [|reflexivity].
    apply in_dropna in Hc. destruct (dropna col); [destruct Hc|discriminate].
  - intros Hall. destruct (dropna col) as [|x xs] eqn:Hd; [reflexivity|].
    assert (Hx : In (Some x) col) by (apply in_dropna; rewrite Hd; now left).
    apply Hall in Hx. discriminate.
Qed.

Lemma rolling_mean_nth (col : list num) (i : nat) (c : num) :
  nth_error (rolling_mean 4 1 col) i = Some c ->
  (i < length col)%nat /\ c = series_mean (rolling_window 4 col i).
Proof.
  unfold rolling_mean. intros Hnth.
  rewrite nth_error_map in Hnth.
  destruct (nth_error (seq 0 (length col)) i) as [j|] eqn:Hj; [|discriminate].
  injection Hnth as <-.
  rewrite nth_error_seq in Hj.
  destruct (Nat.ltb_spec i (length col)) as [Hi|Hi]; [|discriminate].
  injection Hj as <-. split; [exact Hi|]. simpl.
  unfold series_mean. rewrite dropna_Some.
  destruct (dropna (rolling_window 4 col i)); reflexivity.
Qed.

(** C3, as the code has it.  At week index [i] (0-based) the 4-week rolling
    review average is the mean of the defined values among the last
    [min 4 (i+1)] weekly review values, the current week included; it is
    undefined exactly when all of those values are undefined, so it is
    defined whenever one of them is. *)
Theorem review_rolling_last_weeks (datetimelike : bool) (df : list order)
    (ws : list week_row) (i : nat) (w : week_row) :
  weekly datetimelike df = Value ws ->
  nth_error ws i = Some w ->
  let reviews := map (fun x => review (agg x)) ws in
  let n := Nat.min 4 (i + 1) in
  let recent := firstn n (skipn (i + 1 - n) reviews) in
  length recent = n /\
  review_rolling w = series_mean recent /\
  (review_rolling w = NaN <-> forall c, In c recent -> c = NaN).
Proof.
  intros Hws Hw reviews n recent. apply weekly_inv in Hws as [_ ->].
  unfold weekly_frame in Hw. apply zip3_nth in Hw as (a & p & c & _ & _ & Hc & ->).
  simpl. unfold review_rolling_col in Hc.
  apply rolling_mean_nth in Hc as [Hi ->].
  assert (Hrecent : rolling_window 4 (map review (weekly_agg df)) i = recent).
  { unfold recent, reviews, rolling_window. rewrite weekly_reviews.
    f_equal; [unfold n; lia|]. f_equal. unfold n. lia. }
  rewrite Hrecent. split.
  - unfold recent. rewrite length_firstn, length_skipn.
    unfold reviews. rewrite weekly_reviews. unfold n in *. lia.
  - split; [reflexivity|apply series_mean_NaN].
Qed.

Lemma review_rolling_last_weeks_witness :
  weekly (has_rows sample_orders) (df90 sample_orders)
    = Value (weekly_frame (df90 sample_orders)) /\
  nth_error (weekly_frame (df90 sample_orders)) 0 = Some sample_week /\
  review_rolling sample_week =
    series_mean
      (firstn 1 (map (fun x => review (agg x)) (weekly_frame (df90 sample_orders)))).
Proof.
  assert (Hws : weekly (has_rows sample_orders) (df90 sample_orders)
                = Value (weekly_frame (df90 sample_orders))) by reflexivity.
  assert (Hnth : nth_error (weekly_frame (df90 sample_orders)) 0 = Some sample_week).
  { vm_compute. reflexivity. }
  split; [exact Hws|]. split; [exact Hnth|].
  exact (proj1 (proj2 (review_rolling_last_weeks _ (df90 sample_orders) _ 0
                         sample_week Hws Hnth))).
Defined.

(** C3 as stated fails: a table with one week of data whose orders carry
    no review score has an undefined rolling average in that week. *)
Lemma review_rolling_undefined :
  exists ws,
    weekly (has_rows unreviewed_orders) (df90 unreviewed_orders) = Value ws /\
    length ws = 1%nat /\
    map review_rolling ws = [NaN].
Proof.
  exists (weekly_frame (df90 unreviewed_orders)).
  split; [reflexivity|]. split; vm_compute; reflexivity.
Qed.

(** ** The base-scenario net effect *)

Lemma series_sum_ext {A : Type} (f g : A -> num) (rows : list A) :
  (forall r, In r rows -> num_eq (f r) (g r)) ->
  (series_sum (map f rows) == series_sum (map g rows))%Q.
Proof.
  unfold series_sum. induction rows as [|r rows IH]; intros Hrows; simpl.
  - reflexivity.
  - specialize (IH (fun r' Hr' => Hrows r' (or_intror Hr'))).
    pose proof (Hrows r (or_introl eq_refl)) as Hr. unfold num_eq in Hr.
    destruct (f r), (g r); simpl; try contradiction; [|exact IH].
    now rewrite Hr, IH.
Qed.

Lemma in_base_impact (impact : list impact_row) (name : string) (total : Q) :
  In (name, total) (base_impact (impact_base impact)) ->
  total = series_sum (map net_effect (segment_rows (impact_base impact) name)).
Proof.
  unfold base_impact. intros Hin.
  apply in_map_iff in Hin as (k & [= -> <-] & _). reflexivity.
Qed.

Lemma in_segment_rows_base (impact : list impact_row) (name : string) (r : impact_row) :
  In r (segment_rows (impact_base impact) name) <->
  In r impact /\ imp_scenario r = Some base_scenario /\ imp_segment r = Some name.
Proof.
  unfold segment_rows, impact_base, is_base.
  rewrite !filter_In, !bool_decide_eq_true. tauto.
Qed.

Lemma demo_impact_inv (seg : list segment) (rows : list impact_row) :
  demo_impact seg = Value rows -> seg <> [] /\ rows = demo_impact_frame seg.
Proof.
  unfold demo_impact. destruct seg; simpl; [discriminate|].
  intros [= <-]. split; [discriminate|reflexivity].
Qed.

Lemma demo_impact_rows_exist (seg : list segment) :
  seg <> [] -> demo_impact seg = Value (demo_impact_frame seg).
Proof. unfold demo_impact. destruct seg; simpl; congruence. Qed.

(** Every row of the demo impact table carries the four cells [recalc]
    derives from its other cells. *)
Lemma demo_impact_recalc (seg : list segment) (r : impact_row) :
  In r (demo_impact_frame seg) ->
  incr_gmv r = num_mul (gmv_base r) (num_div (uplift_gmv_pct r) (Some 100%Q)) /\
  platform_share r = num_mul (incr_gmv r) (take_rate r) /\
  total_cost r = num_mul (orders_90d r) (cost_per_order r) /\
  net_effect r = num_sub (platform_share r) (total_cost r).
Proof.
  unfold demo_impact_frame. intros Hin.
  apply in_map_iff in Hin as (r0 & <- & _).
  unfold apply_recalc, recalc. simpl. auto.
Qed.

(** C4, as the code has it.  The rollup sums the net-effect column it is
    given.  For an impact table whose base-scenario rows carry the net
    effect of the formula, the sum of each segment, and the net gain over
    all segments, equal the sum over the base rows of baseline GMV x
    (uplift / 100) x take rate - orders x cost per order; and the demo
    fallback fills its four derived columns by that formula, so that its
    rows are of this kind. *)
Theorem base_net_effect_formula (impact : list impact_row) :
  (forall r, In r impact -> imp_scenario r = Some base_scenario ->
             num_eq (net_effect r) (formula_net r)) ->
  (forall name total,
     In (name, total) (base_impact (impact_base impact)) ->
     (total == series_sum (map formula_net (segment_rows (impact_base impact) name)))%Q) /\
  (net_gain (impact_base impact) == series_sum (map formula_net (impact_base impact)))%Q /\
  (forall seg rows r,
     demo_impact seg = Value rows ->
     In r rows ->
     incr_gmv r = num_mul (gmv_base r) (num_div (uplift_gmv_pct r) (Some 100%Q)) /\
     platform_share r = num_mul (incr_gmv r) (take_rate r) /\
     total_cost r = num_mul (orders_90d r) (cost_per_order r) /\
     net_effect r = num_sub (platform_share r) (total_cost r) /\
     net_effect r = formula_net r).
Proof.
  intros Hrows. split; [|split].
  - intros name total Hin. rewrite (in_base_impact _ _ _ Hin).
    apply series_sum_ext. intros r Hr.
    apply in_segment_rows_base in Hr as (Hin' & Hbase & _). auto.
  - unfold net_gain. apply series_sum_ext. intros r Hr.
    unfold impact_base, is_base in Hr.
    rewrite filter_In, bool_decide_eq_true in Hr. destruct Hr. auto.
  - intros seg rows r Hdemo Hr. apply demo_impact_inv in Hdemo as [_ ->].
    destruct (demo_impact_recalc seg r Hr) as (Hi & Hp & Hc & Hn).
    repeat split; try assumption.
    unfold formula_net. now rewrite Hn, Hp, Hc, Hi.
Qed.

Lemma base_net_effect_formula_witness :
  In sample_sum (base_impact (impact_base sample_impact)) /\
  (snd sample_sum ==
   series_sum (map formula_net
                   (segment_rows (impact_base sample_impact) (fst sample_sum))))%Q.
Proof.
  assert (Hin : In sample_sum (base_impact (impact_base sample_impact))).
  { vm_compute. left. reflexivity. }
  split; [exact Hin|].
  refine (proj1 (base_net_effect_formula sample_impact _) _ _ Hin).
  intros r Hr _. vm_compute in Hr.
  destruct Hr as [<- | [<- | [<- | []]]]; vm_compute; reflexivity.
Defined.

(** C4 as stated fails for a table read from a file: the rollup reports the
    net-effect column of the file, here 0, where the formula gives 40. *)
Lemma base_net_effect_not_recomputed :
  In ("A"%string, 0%Q) (base_impact (impact_base inconsistent_impact)) /\
  (series_sum (map formula_net (segment_rows (impact_base inconsistent_impact) "A"))
   == 40)%Q /\
  ~ (0 ==
     series_sum (map formula_net (segment_rows (impact_base inconsistent_impact) "A")))%Q.
Proof.
  split; [vm_compute; left; reflexivity|].
  split; [vm_compute; reflexivity|].
  intros H. vm_compute in H. discriminate H.
Qed.

(** ** The segment rollup *)

Lemma in_insert_name (k x : string) (ks : list string) :
  In x (insert_name k ks) <-> x = k \/ In x ks.
Proof.
  induction ks as [|y ks IH]; simpl; [intuition|].
  destruct (String.ltb k y); [simpl; intuition|].
  destruct (String.eqb_spec k y) as [-> | Hne].
  - simpl. intuition.
  - simpl. rewrite IH. intuition.
Qed.

Lemma in_group_names (keys : list (option string)) (k : string) :
  In k (group_names keys) <-> In (Some k) keys.
Proof.
  unfold group_names. rewrite <- in_dropna.
  induction (dropna keys) as [|y ks IH]; simpl; [tauto|].
  rewrite in_insert_name, IH. intuition.
Qed.

Lemma lookup_name_found {A : Type} (F : string -> A) (keys : list string) (name : string) :
  In name keys -> lookup_name name (map (fun k => (k, F k)) keys) = Some (F name).
Proof.
  induction keys as [|k keys IH]; simpl; [tauto|].
  destruct (String.eqb_spec k name) as [-> | Hne]; [reflexivity|].
  intros [? | Hin]; [contradiction|auto].
Qed.

Lemma lookup_name_absent {A : Type} (F : string -> A) (keys : list string) (name : string) :
  ~ In name keys -> lookup_name name (map (fun k => (k, F k)) keys) = None.
Proof.
  induction keys as [|k keys IH]; simpl; [reflexivity|].
  intros Hnin. destruct (String.eqb_spec k name) as [-> | Hne]; [tauto|].
  apply IH. tauto.
Qed.

Lemma segment_rows_nil (rows : list impact_row) (name : string) :
  segment_rows rows name = [] <-> ~ In (Some name) (map imp_segment rows).
Proof.
  unfold segment_rows. induction rows as [|r rows IH]; simpl; [tauto|].
  destruct (decide (imp_segment r = Some name)) as [Heq | Hne].
  - rewrite bool_decide_eq_true_2 by exact Heq. split; [discriminate|].
    intros H. exfalso. apply H. now left.
  - rewrite bool_decide_eq_false_2 by exact Hne. rewrite IH. tauto.
Qed.

Lemma filter_both {A : Type} (f g : A -> bool) (l : list A) :
  List.filter g (List.filter f l) = List.filter (fun x => f x && g x) l.
Proof.
  induction l as [|x l IH]; simpl; [reflexivity|].
  destruct (f x); simpl; [destruct (g x)|]; congruence.
Qed.

Lemma segment_rows_matching (impact : list impact_row) (s : segment) (name : string) :
  seg_name s = Some name ->
  segment_rows (impact_base impact) name = matching_rows impact s.
Proof.
  intros Hname. unfold matching_rows, segment_rows, impact_base. rewrite Hname.
  apply filter_both.
Qed.

Lemma seg_view_rows_effect (seg : list segment) (impact : list impact_row) :
  seg_view_rows seg (base_impact (impact_base impact)) =
  map (fun s =>
         {| sv_segment := s;
            expected_effect :=
              match matching_rows impact s with
              | [] => NaN
              | rows => Some (series_sum (map net_effect rows))
              end |})
      seg.
Proof.
  unfold seg_view_rows, merge_rows. apply map_ext. intros s. f_equal.
  destruct (seg_name s) as [name|] eqn:Hname;
    [|unfold matching_rows; now rewrite Hname].
  rewrite <- (segment_rows_matching impact s name Hname).
  unfold base_impact.
  destruct (segment_rows (impact_base impact) name) as [|r rows] eqn:Hrows.
  - apply segment_rows_nil in Hrows.
    apply lookup_name_absent. now rewrite in_group_names.
  - rewrite <- Hrows.
    apply (lookup_name_found
             (fun k => series_sum (map net_effect (segment_rows (impact_base impact) k)))).
    rewrite in_group_names.
    destruct (in_dec (option_eq_dec (A:=string))
                (Some name) (map imp_segment (impact_base impact)))
      as [Hin | Hnin]; [exact Hin|].
    apply segment_rows_nil in Hnin. congruence.
Qed.

Lemma seg_view_inv (seg : list segment) (sums : list (string * Q))
    (rows : list seg_view_row) :
  seg_view seg sums = Value rows ->
  merge_keys (map seg_name seg) (map fst sums) = Value tt /\
  rows = seg_view_rows seg sums.
Proof.
  unfold seg_view, merge_left, seg_view_rows.
  destruct (merge_keys (map seg_name seg) (map fst sums)) as [[]|]; simpl;
    [|discriminate].
  intros [= <-]. auto.
Qed.

Lemma seg_view_returns (seg : list segment) (sums : list (string * Q)) :
  text_column (map seg_name seg) \/ sums = [] ->
  seg_view seg sums = Value (seg_view_rows seg sums).
Proof.
  intros Hok. unfold seg_view, merge_left, seg_view_rows.
  assert (Hkeys : merge_keys (map seg_name seg) (map fst sums) = Value tt).
  { apply merge_keys_text. destruct Hok as [H | ->]; auto. }
  now rewrite Hkeys.
Qed.

(** C5. When the segment names are a text column the segment rollup is
    built, and whenever it is built it keeps every segment row, in order,
    and joins to it: a missing value when no row of the impact table has
    the base scenario and the segment's name, and otherwise the sum of the
    net platform effect of those rows (which is a number, possibly 0, never
    the missing value).  Rows of another scenario do not count as a
    match. *)
Theorem seg_view_no_data (seg : list segment) (impact : list impact_row) :
  (text_column (map seg_name seg) ->
   exists rows, seg_view seg (base_impact (impact_base impact)) = Value rows) /\
  (forall rows,
     seg_view seg (base_impact (impact_base impact)) = Value rows ->
     rows =
     map (fun s =>
            {| sv_segment := s;
               expected_effect :=
                 match matching_rows impact s with
                 | [] => NaN
                 | matched => Some (series_sum (map net_effect matched))
                 end |})
         seg).
Proof.
  split.
  - intros Htext. eexists. apply seg_view_returns. now left.
  - intros rows Hrows. apply seg_view_inv in Hrows as [_ ->].
    apply seg_view_rows_effect.
Qed.

Lemma seg_view_no_data_witness :
  text_column (map seg_name demo_segments) /\
  exists rows,
    seg_view demo_segments (base_impact (impact_base optimistic_only_impact))
      = Value rows /\
    map expected_effect rows = [Some 7%Q; NaN; NaN; NaN; NaN].
Proof.
  assert (Htext : text_column (map seg_name demo_segments)).
  { right. eexists. left. reflexivity. }
  split; [exact Htext|].
  destruct (proj1 (seg_view_no_data demo_segments optimistic_only_impact) Htext)
    as (rows & Hrows).
  exists rows. split; [exact Hrows|].
  rewrite (proj2 (seg_view_no_data demo_segments optimistic_only_impact) rows Hrows).
  vm_compute. reflexivity.
Defined.

(** ** The loader and its notices *)

(** Each of the four notices of the loader is emitted when its file is
    absent and the load completes. *)
Lemma load_data_notices (rng : Type) (demo_frame : rng -> list order * rng)
    (demo_logs : Z -> rng -> list log_entry * rng)
    (d : disk) (g g' : rng) (t : tables) (notices : list notice) :
  load_data rng demo_frame demo_logs d g = Value (t, notices, g') ->
  (olist_clean_with_features_csv d = None ->
   In (warning, "olist_clean_with_features.csv not found — using demo frame"%string)
      notices) /\
  (segments_summary_csv d = None ->
   In (warning, "segments_summary.csv not found — using demo segments"%string)
      notices) /\
  (impact_models_csv d = None ->
   In (warning, "impact_models.csv not found — using demo impact (base scenario)"%string)
      notices) /\
  (ffd_logs_csv d = None ->
   In (info, "ffd_logs.csv not found — generating demo logs"%string) notices).
Proof.
  unfold load_data, demo_impact.
  destruct d as [c s i f n]; simpl.
  destruct c as [c|]; [|destruct (demo_frame g) as [c g1]];
    destruct s as [[|s0 s]|], i as [i|], f as [f|]; simpl;
    try (destruct (series_max (map order_purchase_timestamp c)) as [now|];
         [destruct (demo_logs now _) as [f g2]|]; simpl);
    intros Hrun; try discriminate; inversion Hrun; subst;
    repeat split; intros; try discriminate; simpl; auto 10.
Qed.

(** C6, on the code.  With the four other files present and
    [incidents.csv] absent the loader substitutes the demo incidents and
    emits no notice at all: nothing on the page names the missing file. *)
Theorem missing_incidents_silent (rng : Type) (demo_frame : rng -> list order * rng)
    (demo_logs : Z -> rng -> list log_entry * rng)
    (c : list order) (s : list segment) (i : list impact_row)
    (f : list log_entry) (g : rng) :
  load_data rng demo_frame demo_logs
    {| olist_clean_with_features_csv := Some c;
       segments_summary_csv := Some s;
       impact_models_csv := Some i;
       ffd_logs_csv := Some f;
       incidents_csv := None |} g
  = Value ({| t_clean := c; t_seg := s; t_impact := i; t_ffd := f;
              t_inc := demo_incidents c |},
           [], g).
Proof. reflexivity. Qed.

(** With [ffd_logs.csv] absent and an order file that holds no purchase
    timestamp, the demo log cannot be generated: [pd.date_range] raises. *)
Lemma missing_log_undated_orders (rng : Type) (demo_frame : rng -> list order * rng)
    (demo_logs : Z -> rng -> list log_entry * rng) (g : rng) :
  load_data rng demo_frame demo_logs
    {| olist_clean_with_features_csv := Some undated_orders;
       segments_summary_csv := None;
       impact_models_csv := None;
       ffd_logs_csv := None;
       incidents_csv := None |} g
  = Raised "ValueError: Neither `start` nor `end` can be NaT".
Proof. reflexivity. Qed.

(** ** The policy rollup *)

Lemma log_max_latest (ffd : list log_entry) (m : Z) :
  series_max (map log_timestamp ffd) = Some m <-> latest_fire ffd m.
Proof.
  unfold latest_fire. split.
  - intros Hmax. split.
    + apply series_max_attained in Hmax.
      apply in_map_iff in Hmax as (e & He & Hin). eauto.
    + intros e t Hin Ht.
      destruct (series_max_upper (map log_timestamp ffd) t) as (m' & Hm' & Hle).
      { rewrite <- Ht. now apply in_map. }
      congruence.
  - intros [(e & Hin & He) Hub].
    destruct (series_max_upper (map log_timestamp ffd) m) as (m' & Hm' & Hle).
    { rewrite <- He. now apply in_map. }
    pose proof (series_max_attained _ _ Hm') as Hatt.
    apply in_map_iff in Hatt as (e' & He' & Hin').
    specialize (Hub e' m' Hin' He'). rewrite Hm'. f_equal. lia.
Qed.

Lemma last7_iff (ffd : list log_entry) (e : log_entry) :
  In e (last7 ffd) <->
  In e ffd /\
  exists t m, log_timestamp e = Some t /\ latest_fire ffd m /\ m - Timedelta 7 <= t.
Proof.
  unfold last7. rewrite filter_In. unfold ts_le. split.
  - intros [Hin Hb]. split; [exact Hin|].
    destruct (series_max (map log_timestamp ffd)) as [m|] eqn:Hm; simpl in Hb;
      [|discriminate].
    destruct (log_timestamp e) as [t|]; [|discriminate].
    apply Z.leb_le in Hb. exists t, m.
    split; [reflexivity|]. split; [now apply log_max_latest|exact Hb].
  - intros [Hin (t & m & Ht & Hm & Hle)]. split; [exact Hin|].
    apply log_max_latest in Hm. rewrite Hm, Ht. simpl. now apply Z.leb_le.
Qed.

Lemma filter_all {A : Type} (f : A -> bool) (l : list A) :
  (forall x, In x l -> f x = true) -> List.filter f l = l.
Proof.
  induction l as [|x l IH]; intros Hall; simpl; [reflexivity|].
  rewrite (Hall x (or_introl eq_refl)), IH; [reflexivity|].
  intros y Hy. apply Hall. now right.
Qed.

Lemma last7_whole (ffd : list log_entry) :
  spans_days 7 ffd -> last7 ffd = ffd.
Proof.
  intros (Hne & Hts & Hspan). unfold last7. apply filter_all. intros e Hin.
  destruct (Hts e Hin) as (t & Ht).
  destruct (series_max_upper (map log_timestamp ffd) t) as (m & Hm & _).
  { rewrite <- Ht. now apply in_map. }
  rewrite Hm, Ht. simpl. apply Z.leb_le.
  pose proof (series_max_attained _ _ Hm) as Hatt.
  apply in_map_iff in Hatt as (e' & He' & Hin').
  specialize (Hspan e e' t m Hin Hin' Ht He'). lia.
Qed.

Lemma series_count_all {A B : Type} (f : A -> option B) (l : list A) :
  (forall x, In x l -> exists y, f x = Some y) ->
  series_count (map f l) = length l.
Proof.
  unfold series_count. induction l as [|x l IH]; intros Hall; simpl; [reflexivity|].
  destruct (Hall x (or_introl eq_refl)) as (y & ->). simpl.
  rewrite IH; [reflexivity|]. intros z Hz. apply Hall. now right.
Qed.

Lemma ltb_irrefl (s : string) : String.ltb s s = false.
Proof.
  unfold String.ltb. pose proof (String.compare_antisym s s) as H.
  destruct (String.compare s s); simpl in H; congruence.
Qed.

Lemma group_names_const (keys : list (option string)) (A : string) :
  keys <> [] -> (forall k, In k keys -> k = Some A) -> group_names keys = [A].
Proof.
  unfold group_names. induction keys as [|k keys IH]; intros Hne Hall; [congruence|].
  rewrite (Hall k (or_introl eq_refl)). simpl.
  destruct keys as [|k' keys']; [reflexivity|].
  rewrite IH; [|discriminate|intros; apply Hall; now right].
  simpl. now rewrite ltb_irrefl, String.eqb_refl.
Qed.

Lemma group_keys_const (keys : list (option Z)) (a : Z) :
  keys <> [] -> (forall k, In k keys -> k = Some a) -> group_keys keys = [a].
Proof.
  unfold group_keys. induction keys as [|k keys IH]; intros Hne Hall; [congruence|].
  rewrite (Hall k (or_introl eq_refl)). simpl.
  destruct keys as [|k' keys']; [reflexivity|].
  rewrite IH; [|discriminate|intros; apply Hall; now right].
  simpl. now rewrite Z.ltb_irrefl, Z.eqb_refl.
Qed.

(** C7. The policy rollup keeps the entries whose timestamp is at least
    the latest timestamp of the log itself minus 7 days.  For a log that
    spans at most 7 days in which every entry is on node [A] with
    [guardrail_fired] = 1, the node table sorted by decreasing count is the
    single row ([A], number of entries) and the guardrail table is the
    single row ("Yes", number of entries). *)
Theorem policy_rollup_single_node (ffd : list log_entry) (A : string) :
  (forall e,
     In e (last7 ffd) <->
     In e ffd /\
     exists t m, log_timestamp e = Some t /\ latest_fire ffd m /\ m - Timedelta 7 <= t) /\
  (spans_days 7 ffd ->
   (forall e, In e ffd -> node e = Some A /\ guardrail_fired e = Some 1) ->
   sort_by_fires (node_counts (last7 ffd)) = [(A, length ffd)] /\
   gr_view (gr_counts (last7 ffd)) = [(Some "Yes"%string, length ffd)]).
Proof.
  split; [apply last7_iff|].
  intros Hspan Hall. rewrite (last7_whole _ Hspan).
  destruct Hspan as (Hne & Hts & _).
  assert (Hmap : forall {B} (f : log_entry -> B), map f ffd <> []).
  { intros B f. destruct ffd; [congruence|discriminate]. }
  split.
  - unfold node_counts. rewrite (group_names_const _ A).
    + cbn [map].
      rewrite filter_all, (series_count_all (B:=Z) log_timestamp); auto.
      intros e He. apply bool_decide_eq_true. now apply Hall.
    + apply Hmap.
    + intros k Hk. apply in_map_iff in Hk as (e & <- & He). now apply Hall.
  - unfold gr_counts. rewrite (group_keys_const _ 1).
    + cbn [map].
      rewrite filter_all, (series_count_all (B:=Z) log_timestamp); auto.
      intros e He. apply bool_decide_eq_true. now apply Hall.
    + apply Hmap.
    + intros k Hk. apply in_map_iff in Hk as (e & <- & He). now apply Hall.
Qed.

Lemma policy_rollup_single_node_witness :
  spans_days 7 sample_log /\
  sort_by_fires (node_counts (last7 sample_log)) = [("A"%string, 2%nat)] /\
  gr_view (gr_counts (last7 sample_log)) = [(Some "Yes"%string, 2%nat)].
Proof.
  assert (Hspan : spans_days 7 sample_log).
  { split; [discriminate|]. split.
    - intros e [<- | [<- | []]]; eexists; reflexivity.
    - intros e1 e2 t1 t2 [<- | [<- | []]] [<- | [<- | []]] [= <-] [= <-];
        vm_compute; discriminate. }
  split; [exact Hspan|].
  apply (proj2 (policy_rollup_single_node sample_log "A") Hspan).
  intros e [<- | [<- | []]]; split; reflexivity.
Defined.

(** ** Aggregations over empty or all-missing data *)

Lemma nanpercentile_90 (a : list num) :
  nanpercentile a 90 =
  Value match dropna a with
        | [] => NaN
        | xs => Some (percentile_linear xs 90)
        end.
Proof.
  unfold nanpercentile.
  replace (Qle_bool 0 90 && Qle_bool 90 100) with true by reflexivity.
  destruct (dropna a); reflexivity.
Qed.

Lemma dropna_all_missing {A B : Type} (f : A -> option B) (l : list A) :
  (forall x, In x l -> f x = None) -> dropna (map f l) = [].
Proof.
  induction l as [|x l IH]; intros Hall; simpl; [reflexivity|].
  rewrite (Hall x (or_introl eq_refl)). apply IH.
  intros y Hy. apply Hall. now right.
Qed.

Lemma notna_any_all_missing {A : Type} (f : A -> num) (l : list A) :
  (forall x, In x l -> f x = NaN) -> notna_any (map f l) = false.
Proof.
  unfold notna_any. induction l as [|x l IH]; intros Hall; simpl; [reflexivity|].
  rewrite (Hall x (or_introl eq_refl)). apply IH.
  intros y Hy. apply Hall. now right.
Qed.

Lemma series_mean_all_missing {A : Type} (f : A -> num) (l : list A) :
  (forall x, In x l -> f x = NaN) -> series_mean (map f l) = NaN.
Proof.
  intros Hall. unfold series_mean, num in *.
  now rewrite (dropna_all_missing f l Hall).
Qed.

Lemma percentiles_return (df : list order) :
  exists b p, baseline_p90 df = Value b /\ p90 df = Value p.
Proof.
  unfold baseline_p90, p90. rewrite nanpercentile_90.
  destruct (notna_any (map delivery_time_days df)); eauto.
Qed.

(** On the 90-day window of an order table the percentile and mean
    aggregations, once they are reached, return a value; over data that is
    empty or all missing the value is NaN: the 90th-percentile delivery
    duration (the baseline and the KPI card) without a non-missing
    duration, the on-time rate without a non-missing flag, the baseline
    on-time rate without a defined weekly percentage, and the weekly
    on-time and review means of a week whose cells are all missing. *)
Lemma aggregations_degrade_to_NaN (clean : list order) :
  let df := df90 clean in
  (exists b p, baseline_p90 df = Value b /\ p90 df = Value p) /\
  ((forall r, In r df -> delivery_time_days r = NaN) ->
   baseline_p90 df = Value NaN /\ p90 df = Value NaN) /\
  ((forall r, In r df -> on_time r = NaN) -> otd_90 df = NaN) /\
  ((forall w, In w (weekly_frame df) -> otd_pct w = NaN) ->
   baseline_otd (weekly_frame df) = NaN) /\
  (forall w, In w (weekly_frame df) ->
     ((forall r, In r (week_rows df (week (agg w))) -> on_time r = NaN) ->
      otd (agg w) = NaN /\ otd_pct w = NaN) /\
     ((forall r, In r (week_rows df (week (agg w))) -> review_score_mean r = NaN) ->
      review (agg w) = NaN)).
Proof.
  intros df. split; [apply percentiles_return|].
  split.
  { intros Hall. unfold baseline_p90, p90, dropna_col.
    rewrite (notna_any_all_missing delivery_time_days df Hall).
    rewrite nanpercentile_90, dropna_Some. unfold num in *.
    now rewrite (dropna_all_missing delivery_time_days df Hall). }
  split.
  { intros Hall. unfold otd_90.
    now rewrite (series_mean_all_missing on_time df Hall). }
  split.
  { intros Hall. unfold baseline_otd. now apply series_mean_all_missing. }
  intros w Hw.
  destruct (weekly_row_inv _ _ Hw) as (_ & _ & Hotd & Hrev & Hpct).
  split.
  - intros Hall. rewrite Hpct, Hotd.
    now rewrite (series_mean_all_missing on_time _ Hall).
  - intros Hall. rewrite Hrev. now apply series_mean_all_missing.
Qed.

Lemma aggregations_degrade_to_NaN_witness :
  (forall r, In r (df90 undelivered_orders) -> delivery_time_days r = NaN) /\
  baseline_p90 (df90 undelivered_orders) = Value NaN /\
  p90 (df90 undelivered_orders) = Value NaN.
Proof.
  assert (Hall : forall r, In r (df90 undelivered_orders) -> delivery_time_days r = NaN).
  { intros r Hr. vm_compute in Hr. destruct Hr as [<- | [<- | []]]; reflexivity. }
  split; [exact Hall|].
  exact (proj1 (proj2 (aggregations_degrade_to_NaN undelivered_orders)) Hall).
Defined.

(** ** The script and the store *)

#[local] Arguments baseline_p90 : simpl never.
#[local] Arguments p90 : simpl never.

#[local] Arguments dt_accessor : simpl never.
#[local] Arguments str_accessor : simpl never.
#[local] Arguments merge_keys : simpl never.

Lemma well_formed_checks (t : tables) :
  well_formed t <->
  dt_accessor (has_rows (t_clean t)) = Value tt /\
  str_accessor (map status (t_inc t)) = Value tt /\
  merge_keys (map seg_name (t_seg t))
             (map fst (base_impact (impact_base (t_impact t)))) = Value tt.
Proof.
  unfold well_formed.
  rewrite dt_accessor_rows, str_accessor_text, merge_keys_text.
  assert (Hnil : map fst (base_impact (impact_base (t_impact t))) = [] <->
                 base_impact (impact_base (t_impact t)) = []).
  { destruct (base_impact (impact_base (t_impact t))); simpl; split; congruence. }
  rewrite Hnil. tauto.
Qed.

Ltac run_dashboard :=
  unfold dashboard, loaded_store;
  unfold pbind, read_orders, read_segments, read_impact, read_log,
    read_incidents, read_sums, read_seg_view, read_node_counts, read_weekly,
    read_gr_view, get_frame, ret, lift, new_frame, assign_column;
  simpl.

(** Run on the store the loader leaves for well-formed tables, the script
    returns the page, and it leaves a store that extends the one it
    started from: the frames it builds are new, and the three column
    assignments ([weekly["otd_pct"]], [weekly["review_rolling"]],
    [gr_counts["label"]]) fall on frames it built itself. *)
Lemma dashboard_runs (t : tables) :
  well_formed t ->
  exists b p extra,
    baseline_p90 (df90 (t_clean t)) = Value b /\
    p90 (df90 (t_clean t)) = Value p /\
    dashboard 0 1 2 3 4 (loaded_store t) =
      Value (page_of t b p, loaded_store t ++ extra).
Proof.
  intros Hwf. apply well_formed_checks in Hwf as (Hdt & Hstr & Hmerge).
  destruct t as [c s i f n]. simpl in Hdt, Hstr, Hmerge.
  destruct (percentiles_return (df90 c)) as (b & p & Hb & Hp).
  exists b, p. eexists. split; [exact Hb|]. split; [exact Hp|].
  run_dashboard. rewrite Hdt. simpl. rewrite Hb. simpl. rewrite Hp. simpl.
  rewrite Hstr. simpl. rewrite Hmerge. simpl. reflexivity.
Qed.

(** On tables that are not well-formed the script raises: [.dt] at line
    121, [.str] at line 176 or [merge] at line 188. *)
Lemma dashboard_stops (t : tables) (pg : page) (h' : store) :
  dashboard 0 1 2 3 4 (loaded_store t) = Value (pg, h') -> well_formed t.
Proof.
  intros Hrun. apply well_formed_checks.
  destruct t as [c s i f n]. simpl.
  destruct (percentiles_return (df90 c)) as (b & p & Hb & Hp).
  revert Hrun. run_dashboard.
  destruct (dt_accessor (has_rows c)) as [[]|] eqn:Hdt; simpl; [|discriminate].
  rewrite Hb. simpl. rewrite Hp. simpl.
  destruct (str_accessor (map status n)) as [[]|] eqn:Hstr; simpl; [|discriminate].
  destruct (merge_keys (map seg_name s) (map fst (base_impact (impact_base i))))
    as [[]|] eqn:Hmerge; simpl; [|discriminate].
  auto.
Qed.

(** *** The frame rule of the store *)

Lemma keeps_ret {A : Type} (n : nat) (a : A) (Q : A -> Prop) :
  Q a -> keeps n (ret a) Q.
Proof. intros HQ h a' h' Hn Hrun. inversion Hrun; subst. auto. Qed.

Lemma keeps_lift {A : Type} (n : nat) (m : outcome A) :
  keeps n (lift m) (fun _ => True).
Proof.
  intros h a h' Hn. unfold lift.
  destruct m; intros Hrun; inversion Hrun; subst. auto.
Qed.

Lemma keeps_get_frame (n l : nat) : keeps n (get_frame l) (fun _ => True).
Proof.
  intros h a h' Hn. unfold get_frame, store in *.
  destruct (h !! l); intros Hrun; inversion Hrun; subst; repeat split; auto.
Qed.

(** A new frame goes behind the frames that are there. *)
Lemma keeps_new_frame (n : nat) (f : frame) :
  keeps n (new_frame f) (fun l => (n <= l)%nat).
Proof.
  intros h a h' Hn Hrun. inversion Hrun; subst. rewrite length_app. simpl.
  split; [lia|]. split; [|exact Hn].
  rewrite firstn_app. replace (n - length h)%nat with 0%nat by lia.
  simpl. apply app_nil_r.
Qed.

(** A column assignment changes one frame, the one at its address. *)
Lemma keeps_assign_column (n l : nat) (upd : frame -> outcome frame) :
  (n <= l)%nat -> keeps n (assign_column l upd) (fun _ => True).
Proof.
  intros Hl h a h' Hn. unfold assign_column, store in *.
  destruct (h !! l) as [f|]; [|discriminate].
  destruct (upd f) as [f'|]; [|discriminate].
  intros Hrun. inversion Hrun; subst.
  rewrite length_insert. split; [exact Hn|]. split; [|exact I].
  apply list_eq. intros k. rewrite !lookup_take.
  destruct (decide (k < n)%nat) as [Hk | Hk]; [|reflexivity].
  apply list_lookup_insert_ne. lia.
Qed.

Lemma keeps_bind {A B : Type} (n : nat) (m : prog A) (k : A -> prog B)
    (Q : A -> Prop) (R : B -> Prop) :
  keeps n m Q -> (forall a, Q a -> keeps n (k a) R) -> keeps n (pbind m k) R.
Proof.
  intros Hm Hk h b h' Hn. unfold pbind.
  destruct (m h) as [[a h1]|] eqn:Hrun; [|discriminate].
  intros Hrun'.
  destruct (Hm h a h1 Hn Hrun) as (Hn1 & Hfirst1 & HQ).
  destruct (Hk a HQ h1 b h' Hn1 Hrun') as (Hn' & Hfirst' & HR).
  split; [exact Hn'|]. split; [congruence|exact HR].
Qed.

Ltac keeps_read :=
  eapply keeps_bind; [apply keeps_get_frame|];
  intros [] _; repeat match goal with |- context [match ?o with _ => _ end] => destruct o end;
  first [apply keeps_ret; exact I | apply keeps_lift].

Lemma keeps_read_orders (n l : nat) : keeps n (read_orders l) (fun _ => True).
Proof. unfold read_orders. keeps_read. Qed.

Lemma keeps_read_segments (n l : nat) : keeps n (read_segments l) (fun _ => True).
Proof. unfold read_segments. keeps_read. Qed.

Lemma keeps_read_impact (n l : nat) : keeps n (read_impact l) (fun _ => True).
Proof. unfold read_impact. keeps_read. Qed.

Lemma keeps_read_log (n l : nat) : keeps n (read_log l) (fun _ => True).
Proof. unfold read_log. keeps_read. Qed.

Lemma keeps_read_incidents (n l : nat) : keeps n (read_incidents l) (fun _ => True).
Proof. unfold read_incidents. keeps_read. Qed.

Lemma keeps_read_sums (n l : nat) : keeps n (read_sums l) (fun _ => True).
Proof. unfold read_sums. keeps_read. Qed.

Lemma keeps_read_seg_view (n l : nat) : keeps n (read_seg_view l) (fun _ => True).
Proof. unfold read_seg_view. keeps_read. Qed.

Lemma keeps_read_node_counts (n l : nat) :
  keeps n (read_node_counts l) (fun _ => True).
Proof. unfold read_node_counts. keeps_read. Qed.

Lemma keeps_read_weekly (n l : nat) : keeps n (read_weekly l) (fun _ => True).
Proof. unfold read_weekly. keeps_read. Qed.

Lemma keeps_read_gr_view (n l : nat) : keeps n (read_gr_view l) (fun _ => True).
Proof. unfold read_gr_view. keeps_read. Qed.

Create HintDb store_frame.

#[local] Hint Resolve keeps_read_orders keeps_read_segments keeps_read_impact
  keeps_read_log keeps_read_incidents keeps_read_sums keeps_read_seg_view
  keeps_read_node_counts keeps_read_weekly keeps_read_gr_view
  keeps_new_frame keeps_lift : store_frame.

Ltac keeps_step :=
  lazymatch goal with
  | |- keeps _ (pbind (assign_column _ _) _) _ =>
      eapply keeps_bind; [apply keeps_assign_column; assumption | intros ? _]
  | |- keeps _ (pbind _ _) _ =>
      eapply keeps_bind; [solve [auto with store_frame] | intros ? ?]
  | |- keeps _ (ret _) _ => apply keeps_ret; exact I
  end.

(** Whatever the store and the addresses it is given, the script leaves
    every frame that was in the store before it ran as it was. *)
Lemma dashboard_keeps (n clean seg impact ffd inc : nat) :
  keeps n (dashboard clean seg impact ffd inc) (fun _ => True).
Proof. unfold dashboard. cbv zeta. repeat keeps_step. Qed.

Lemma dashboard_frame (h h' : store) (clean seg impact ffd inc : nat) (pg : page) :
  dashboard clean seg impact ffd inc h = Value (pg, h') ->
  firstn (length h) h' = h.
Proof.
  intros Hrun.
  destruct (dashboard_keeps (length h) clean seg impact ffd inc h pg h'
              (Nat.le_refl _) Hrun) as (_ & Hfirst & _).
  rewrite Hfirst. apply firstn_all.
Qed.

(** C9. Run on the five loaded frames of well-formed tables the script
    returns its page, every value of which is a function of the loaded
    tables ([page_of]), and the store it leaves is the loaded store
    followed by the frames the script built.  Whatever the store and the
    addresses of the source frames, a run of the script leaves every frame
    of the store it started from unchanged: windowing, weekly aggregation, KPI reductions, segment join,
    policy rollup and incident filter write to frames of their own only. *)
Theorem source_tables_unchanged (t : tables) :
  (well_formed t ->
   exists b p extra,
     baseline_p90 (df90 (t_clean t)) = Value b /\
     p90 (df90 (t_clean t)) = Value p /\
     dashboard 0 1 2 3 4 (loaded_store t) =
       Value (page_of t b p, loaded_store t ++ extra)) /\
  (forall (h h' : store) (clean seg impact ffd inc : nat) (pg : page),
     dashboard clean seg impact ffd inc h = Value (pg, h') ->
     firstn (length h) h' = h).
Proof.
  split; [apply dashboard_runs|]. intros h h' clean seg impact ffd inc pg.
  apply dashboard_frame.
Qed.

Lemma source_tables_unchanged_witness :
  exists pg h',
    dashboard 0 1 2 3 4 (loaded_store sample_tables) = Value (pg, h') /\
    firstn 5 h' = loaded_store sample_tables.
Proof.
  destruct (dashboard 0 1 2 3 4 (loaded_store sample_tables))
    as [[pg h'] | e] eqn:Hrun.
  - exists pg, h'. split; [reflexivity|].
    exact (proj2 (source_tables_unchanged sample_tables) _ _ _ _ _ _ _ _ Hrun).
  - vm_compute in Hrun. discriminate Hrun.
Defined.

(** ** Runs with all files present *)

Lemma load_data_full (rng : Type) (demo_frame : rng -> list order * rng)
    (demo_logs : Z -> rng -> list log_entry * rng)
    (c : list order) (s : list segment) (i : list impact_row)
    (f : list log_entry) (n : list incident) (g : rng) :
  load_data rng demo_frame demo_logs (full_disk c s i f n) g =
  Value ({| t_clean := c; t_seg := s; t_impact := i; t_ffd := f; t_inc := n |},
         [], g).
Proof. reflexivity. Qed.

(** C10. With the five files present a run of the program draws nothing
    from the random generator: whatever the generator and its state, the
    run has the same result; the load hands the contents of the files
    through with no notice at all and the generator untouched; and when the
    tables in the files are well-formed the run shows a page, with no
    notice, and the page is the function [page_of] of the contents of the
    files. *)
Theorem full_disk_deterministic
    (rng1 rng2 : Type)
    (demo_frame1 : rng1 -> list order * rng1)
    (demo_logs1 : Z -> rng1 -> list log_entry * rng1)
    (demo_frame2 : rng2 -> list order * rng2)
    (demo_logs2 : Z -> rng2 -> list log_entry * rng2)
    (c : list order) (s : list segment) (i : list impact_row)
    (f : list log_entry) (n : list incident) (g1 : rng1) (g2 : rng2) :
  app_py rng1 demo_frame1 demo_logs1 (full_disk c s i f n) g1 =
  app_py rng2 demo_frame2 demo_logs2 (full_disk c s i f n) g2 /\
  load_data rng1 demo_frame1 demo_logs1 (full_disk c s i f n) g1 =
  Value ({| t_clean := c; t_seg := s; t_impact := i; t_ffd := f; t_inc := n |},
         [], g1) /\
  (well_formed {| t_clean := c; t_seg := s; t_impact := i;
                  t_ffd := f; t_inc := n |} ->
   exists b p,
     app_py rng1 demo_frame1 demo_logs1 (full_disk c s i f n) g1 =
     Value ([], page_of {| t_clean := c; t_seg := s; t_impact := i;
                           t_ffd := f; t_inc := n |} b p)).
Proof.
  unfold app_py. rewrite !load_data_full. cbn [bind].
  split; [reflexivity|]. split; [reflexivity|]. intros Hwf.
  destruct (dashboard_runs {| t_clean := c; t_seg := s; t_impact := i;
                              t_ffd := f; t_inc := n |} Hwf)
    as (b & p & extra & _ & _ & Hrun).
  exists b, p. now rewrite Hrun.
Qed.

Lemma full_disk_deterministic_witness :
  well_formed sample_tables /\
  exists b p,
    app_py unit sample_demo_frame sample_demo_logs
      (full_disk sample_orders demo_segments sample_impact sample_log
                 (demo_incidents sample_orders)) tt =
    Value ([], page_of sample_tables b p).
Proof.
  assert (Hwf : well_formed sample_tables).
  { split; [discriminate|]. split; [|left]; right; eexists; left; reflexivity. }
  split; [exact Hwf|].
  exact (proj2 (proj2 (full_disk_deterministic unit unit
                         sample_demo_frame sample_demo_logs
                         sample_demo_frame sample_demo_logs
                         sample_orders demo_segments sample_impact sample_log
                         (demo_incidents sample_orders) tt tt)) Hwf).
Defined.

(** ** An order file without rows *)

(** C8, on the code.  With the five files present and an order file that
    has its header and no row, the run stops at line 121: the purchase
    column of such a file is an object column, [.dt] raises on it, and no
    mean or percentile of the empty window is ever computed, whatever the
    other four files hold.  The guard of line 143 shows that data-less
    windows were meant to give NaN. *)
Theorem empty_order_file_raises (rng : Type) (demo_frame : rng -> list order * rng)
    (demo_logs : Z -> rng -> list log_entry * rng)
    (s : list segment) (i : list impact_row) (f : list log_entry)
    (n : list incident) (g : rng) :
  app_py rng demo_frame demo_logs (full_disk [] s i f n) g =
  Raised "AttributeError: Can only use .dt accessor with datetimelike values".
Proof. unfold app_py. rewrite load_data_full. reflexivity. Qed.

(** * Further properties of the script *)

(** ** The two trailing windows *)

Lemma in_df90 (clean : list order) (r : order) :
  In r (df90 clean) <->
  In r clean /\
  exists t m,
    order_purchase_timestamp r = Some t /\ end_date clean = Some m /\
    m - Timedelta 90 <= t <= m.
Proof.
  unfold df90. rewrite filter_In. unfold between, start_90, ts_le.
  split.
  - intros [Hin Hb]. split; [exact Hin|].
    destruct (end_date clean) as [m|]; simpl in Hb; [|discriminate].
    destruct (order_purchase_timestamp r) as [t|]; [|discriminate].
    apply andb_true_iff in Hb as [H1 H2]. apply Z.leb_le in H1, H2.
    exists t, m. auto.
  - intros [Hin (t & m & -> & -> & Hlo & Hhi)]. split; [exact Hin|].
    simpl. apply andb_true_iff. split; now apply Z.leb_le.
Qed.

Lemma Timedelta_nonneg (d : Z) : 0 <= d -> 0 <= Timedelta d.
Proof. unfold Timedelta, day_ns. lia. Qed.

(** The orders that carry the latest purchase timestamp are in the
    window. *)
Lemma latest_in_df90 (clean : list order) (r : order) (m : Z) :
  In r clean -> order_purchase_timestamp r = Some m -> end_date clean = Some m ->
  In r (df90 clean).
Proof.
  intros Hin Hr Hm. apply in_df90. split; [exact Hin|].
  exists m, m. pose proof (Timedelta_nonneg 90 ltac:(lia)). repeat split; auto; lia.
Qed.

Lemma end_date_df90 (clean : list order) : end_date (df90 clean) = end_date clean.
Proof.
  destruct (end_date clean) as [m|] eqn:Hm.
  - apply end_date_latest. pose proof Hm as Hlatest.
    apply end_date_latest in Hlatest as [(r & Hin & Hr) Hub]. split.
    + exists r. split; [|exact Hr]. now apply (latest_in_df90 clean r m).
    + intros r' t Hin' Ht. apply in_df90 in Hin' as [Hin' _]. eauto.
  - destruct (end_date (df90 clean)) as [m'|] eqn:Hm'; [|reflexivity].
    apply end_date_latest in Hm' as [(r & Hin & Hr) _].
    apply in_df90 in Hin as [_ (t & m & _ & Hsome & _)]. congruence.
Qed.

Lemma filter_twice {A : Type} (f : A -> bool) (l : list A) :
  List.filter f (List.filter f l) = List.filter f l.
Proof.
  apply filter_all. intros x Hx. now apply filter_In in Hx.
Qed.

(** X1. Windowing a window changes nothing: the 90-day window of the
    90-day window of a table is that window, because the latest order, on
    which the window hangs, is always kept. *)
Theorem df90_idempotent (clean : list order) :
  df90 (df90 clean) = df90 clean.
Proof.
  unfold df90 at 1. unfold start_90. rewrite end_date_df90.
  unfold df90. apply filter_twice.
Qed.

(** X2. The window is empty exactly when no order of the table carries a
    purchase timestamp; otherwise it holds every order bought at the
    latest purchase timestamp. *)
Theorem df90_empty_iff (clean : list order) :
  (df90 clean = [] <->
   forall r, In r clean -> order_purchase_timestamp r = NaT) /\
  (forall r m,
     In r clean -> order_purchase_timestamp r = Some m ->
     latest_purchase clean m -> In r (df90 clean)).
Proof.
  split.
  - split.
    + intros Hempty r Hin.
      destruct (order_purchase_timestamp r) as [t|] eqn:Ht; [|reflexivity].
      exfalso.
      destruct (series_max_upper (map order_purchase_timestamp clean) t)
        as (m & Hm & _).
      { rewrite <- Ht. now apply in_map. }
      fold (end_date clean) in Hm. pose proof Hm as Hlatest.
      apply end_date_latest in Hlatest as [(r' & Hin' & Hr') _].
      pose proof (latest_in_df90 clean r' m Hin' Hr' Hm) as Hw.
      rewrite Hempty in Hw. exact Hw.
    + intros Hall. destruct (df90 clean) as [|r rest] eqn:Hd; [reflexivity|].
      assert (Hin : In r (df90 clean)) by (rewrite Hd; now left).
      apply in_df90 in Hin as [Hin (t & m & Ht & _)].
      rewrite (Hall r Hin) in Ht. discriminate.
  - intros r m Hin Hr Hm. apply end_date_latest in Hm.
    now apply (latest_in_df90 clean r m).
Qed.

Lemma df90_empty_iff_witness :
  In latest_sample_order sample_orders /\
  latest_purchase sample_orders (monday + Timedelta 8) /\
  In latest_sample_order (df90 sample_orders).
Proof.
  assert (Hin : In latest_sample_order sample_orders).
  { right. right. right. left. reflexivity. }
  assert (Hlatest : latest_purchase sample_orders (monday + Timedelta 8)).
  { split.
    - exists latest_sample_order. split; [exact Hin|reflexivity].
    - intros r t [<- | [<- | [<- | [<- | []]]]] [= <-]; vm_compute; discriminate. }
  split; [exact Hin|]. split; [exact Hlatest|].
  exact (proj2 (df90_empty_iff sample_orders) latest_sample_order
               (monday + Timedelta 8) Hin eq_refl Hlatest).
Defined.

(** ** The weeks of the weekly frame *)

Lemma week_start_mono (t1 t2 : Z) : t1 <= t2 -> week_start t1 <= week_start t2.
Proof.
  intros Hle. rewrite !week_start_floor.
  assert (HD : 0 < day_ns) by reflexivity.
  generalize dependent day_ns. intros D HD.
  pose proof (Z.div_le_mono (t1 + 3 * D) (t2 + 3 * D) (7 * D) ltac:(lia) ltac:(lia)).
  nia.
Qed.

Lemma week_start_gap (t1 t2 : Z) :
  week_start t1 < week_start t2 -> week_start t1 + Timedelta 7 <= week_start t2.
Proof.
  rewrite !week_start_floor. unfold Timedelta.
  assert (HD : 0 < day_ns) by reflexivity.
  generalize dependent day_ns. intros D HD.
  set (q1 := (t1 + 3 * D) / (7 * D)). set (q2 := (t2 + 3 * D) / (7 * D)).
  intros Hlt. assert (q1 < q2) by nia. nia.
Qed.

Lemma insert_key_sorted (k : Z) (ks : list Z) :
  StronglySorted Z.lt ks -> StronglySorted Z.lt (insert_key k ks).
Proof.
  induction ks as [|x ks IH]; intros Hs; simpl.
  - repeat constructor.
  - inversion Hs as [|? ? Hs' Hall]; subst.
    destruct (Z.ltb_spec k x) as [Hlt | Hge].
    + constructor; [exact Hs|]. constructor; [exact Hlt|].
      rewrite List.Forall_forall in *. intros y Hy. specialize (Hall y Hy). lia.
    + destruct (Z.eqb_spec k x) as [-> | Hne]; [exact Hs|].
      constructor; [now apply IH|].
      apply List.Forall_forall. intros y Hy. apply in_insert_key in Hy as [-> | Hy].
      * lia.
      * rewrite List.Forall_forall in Hall. now apply Hall.
Qed.

Lemma group_keys_sorted (keys : list timestamp) :
  StronglySorted Z.lt (group_keys keys).
Proof.
  unfold group_keys. induction (dropna keys) as [|k ks IH]; simpl.
  - constructor.
  - now apply insert_key_sorted.
Qed.

Lemma weekly_weeks (df : list order) :
  map (fun w => week (agg w)) (weekly_frame df) = group_keys (map week_of df).
Proof.
  rewrite <- (map_map agg week). unfold weekly_frame. rewrite zip3_agg.
  - unfold weekly_agg. rewrite map_map. simpl. apply map_id.
  - unfold otd_pct_col. apply length_map.
  - unfold review_rolling_col. now rewrite length_rolling_mean, length_map.
Qed.

(** X3. The rows of the weekly frame come in strictly increasing order of
    their week start: the series is chronological and no week appears
    twice. *)
Theorem weekly_weeks_increasing (datetimelike : bool) (df : list order)
    (ws : list week_row) :
  weekly datetimelike df = Value ws ->
  StronglySorted Z.lt (map (fun w => week (agg w)) ws).
Proof.
  intros Hws. apply weekly_inv in Hws as [_ ->].
  rewrite weekly_weeks. apply group_keys_sorted.
Qed.

Lemma weekly_weeks_increasing_witness :
  weekly (has_rows sample_orders) (df90 sample_orders)
    = Value (weekly_frame (df90 sample_orders)) /\
  StronglySorted Z.lt
    (map (fun w => week (agg w)) (weekly_frame (df90 sample_orders))).
Proof.
  assert (Hws : weekly (has_rows sample_orders) (df90 sample_orders)
                = Value (weekly_frame (df90 sample_orders))) by reflexivity.
  split; [exact Hws|].
  exact (weekly_weeks_increasing _ _ _ Hws).
Defined.

Lemma gap_sorted_span (W a b : Z) (l : list Z) :
  0 <= W ->
  StronglySorted (fun x y => x + W <= y) l -> l <> [] ->
  (forall x, In x l -> a < x <= b) ->
  (Z.of_nat (length l) - 1) * W < b - a.
Proof.
  intros HW Hs. revert a. induction Hs as [|x l Hs IH Hall]; intros a Hne Hb.
  - congruence.
  - pose proof (Hb x (or_introl eq_refl)) as Hx.
    destruct l as [|y l']; [simpl; lia|].
    assert (Hl : forall z, In z (y :: l') -> x + W - 1 < z <= b).
    { intros z Hz. rewrite List.Forall_forall in Hall.
      specialize (Hall z Hz). specialize (Hb z (or_intror Hz)). lia. }
    specialize (IH (x + W - 1) ltac:(discriminate) Hl).
    change (length (x :: y :: l')) with (S (length (y :: l'))).
    rewrite Nat2Z.inj_succ. nia.
Qed.

Lemma week_starts_gap_sorted (l : list Z) :
  StronglySorted Z.lt l ->
  (forall k, In k l -> exists t, k = week_start t) ->
  StronglySorted (fun x y => x + Timedelta 7 <= y) l.
Proof.
  induction 1 as [|x l Hs IH Hall]; intros Hweeks; constructor.
  - apply IH. intros k Hk. apply Hweeks. now right.
  - apply List.Forall_forall. intros y Hy. rewrite List.Forall_forall in Hall.
    destruct (Hweeks x (or_introl eq_refl)) as (tx & ->).
    destruct (Hweeks y (or_intror Hy)) as (ty & ->).
    apply week_start_gap. now apply Hall.
Qed.

(** X4. The weekly frame of the 90-day window has at most 14 rows: 90 days
    touch at most 14 calendar weeks. *)
Theorem weekly_at_most_14_weeks (clean : list order) (ws : list week_row) :
  weekly (has_rows clean) (df90 clean) = Value ws ->
  (length ws <= 14)%nat.
Proof.
  intros Hws. apply weekly_inv in Hws as [_ ->].
  rewrite <- (length_map (fun w => week (agg w))), weekly_weeks.
  set (ks := group_keys (map week_of (df90 clean))).
  destruct ks as [|k0 ks'] eqn:Hks; [simpl; lia|]. rewrite <- Hks.
  assert (Hne : ks <> []) by (rewrite Hks; discriminate).
  assert (Hkeys : forall k, In k ks ->
            exists t m, k = week_start t /\ end_date clean = Some m /\
                        m - Timedelta 90 <= t <= m).
  { intros k Hk. unfold ks in Hk.
    apply in_group_keys, in_map_iff in Hk as (r & Hr & Hin).
    apply in_df90 in Hin as [_ (t & m & Ht & Hm & Hb)].
    unfold week_of in Hr. rewrite Ht in Hr. injection Hr as <-. eauto. }
  destruct (Hkeys k0) as (t0 & m & _ & Hm & _); [rewrite Hks; now left|].
  assert (Hspan : (Z.of_nat (length ks) - 1) * Timedelta 7
                  < m - (m - Timedelta 90 - Timedelta 7)).
  { apply gap_sorted_span.
    - now apply Timedelta_nonneg.
    - apply week_starts_gap_sorted; [apply group_keys_sorted|].
      intros k Hk. destruct (Hkeys k Hk) as (t & _ & -> & _). eauto.
    - exact Hne.
    - intros k Hk. destruct (Hkeys k Hk) as (t & m' & -> & Hm' & Hb).
      assert (m' = m) by congruence. subst m'.
      pose proof (week_start_bounds t). lia. }
  unfold Timedelta in Hspan. assert (HD : 0 < day_ns) by reflexivity.
  generalize dependent day_ns. intros D. intros. nia.
Qed.

Lemma weekly_at_most_14_weeks_witness :
  weekly (has_rows sample_orders) (df90 sample_orders)
    = Value (weekly_frame (df90 sample_orders)) /\
  (length (weekly_frame (df90 sample_orders)) <= 14)%nat.
Proof.
  assert (Hws : weekly (has_rows sample_orders) (df90 sample_orders)
                = Value (weekly_frame (df90 sample_orders))) by reflexivity.
  split; [exact Hws|].
  exact (weekly_at_most_14_weeks _ _ Hws).
Defined.

(** ** Bounds on the means *)

Lemma q_sum_bounds (lo hi : Q) (xs : list Q) :
  (forall x, In x xs -> (lo <= x /\ x <= hi)%Q) ->
  (lo * q_of_nat (length xs) <= q_sum xs /\
   q_sum xs <= hi * q_of_nat (length xs))%Q.
Proof.
  induction xs as [|x xs IH]; intros Hxs; simpl.
  - change (q_of_nat 0) with 0%Q. rewrite !Qmult_0_r. split; apply Qle_refl.
  - destruct IH as [IH0 IH1]; [intros; apply Hxs; now right|].
    destruct (Hxs x (or_introl eq_refl)) as [Hlo Hhi].
    rewrite q_of_nat_S.
    set (N := q_of_nat (length xs)) in *.
    assert (El : (lo * (1 + N) == lo + lo * N)%Q) by ring.
    assert (Eh : (hi * (1 + N) == hi + hi * N)%Q) by ring.
    rewrite El, Eh.
    set (L := (lo * N)%Q) in *. set (H := (hi * N)%Q) in *.
    split; lra.
Qed.

Lemma series_mean_bounds (lo hi : Q) (col : list num) (m : Q) :
  (forall q, In (Some q) col -> (lo <= q /\ q <= hi)%Q) ->
  series_mean col = Some m -> (lo <= m /\ m <= hi)%Q.
Proof.
  intros Hcol. unfold series_mean.
  destruct (dropna col) as [|x xs] eqn:Hd; [discriminate|].
  intros [= <-].
  destruct (q_sum_bounds lo hi (x :: xs)) as [H0 H1].
  { intros y Hy. apply Hcol, in_dropna. now rewrite Hd. }
  assert (Hpos : (0 < q_of_nat (length (x :: xs)))%Q).
  { apply q_of_nat_pos. simpl. lia. }
  split.
  - apply Qle_shift_div_l; [exact Hpos|exact H0].
  - apply Qle_shift_div_r; [exact Hpos|exact H1].
Qed.

Lemma num_mul_100_bounds (c : num) (p : Q) :
  (forall m, c = Some m -> (0 <= m /\ m <= 1)%Q) ->
  num_mul c (Some 100%Q) = Some p -> (0 <= p /\ p <= 100)%Q.
Proof.
  intros Hc. destruct c as [m|]; [|discriminate]. simpl. intros [= <-].
  destruct (Hc m eq_refl). split; lra.
Qed.

(** X5. When every on-time flag that is present in a frame is between 0
    and 1, the on-time rate of the KPI card and the baseline on-time rate
    over the weeks are, when defined, percentages between 0 and 100;
    missing flags do not disturb this. *)
Theorem otd_percentages_in_range (df : list order) :
  (forall r q, In r df -> on_time r = Some q -> (0 <= q /\ q <= 1)%Q) ->
  (forall p, otd_90 df = Some p -> (0 <= p /\ p <= 100)%Q) /\
  (forall datetimelike ws b,
     weekly datetimelike df = Value ws ->
     baseline_otd ws = Some b -> (0 <= b /\ b <= 100)%Q).
Proof.
  intros Hflags.
  assert (Hmean : forall rows m,
            (forall r, In r rows -> In r df) ->
            series_mean (map on_time rows) = Some m -> (0 <= m /\ m <= 1)%Q).
  { intros rows m Hsub. apply series_mean_bounds.
    intros q Hq. apply in_map_iff in Hq as (r & Hr & Hin). eauto. }
  split.
  - intros p. unfold otd_90. apply num_mul_100_bounds.
    intros m. now apply Hmean.
  - intros dt ws b Hws. apply weekly_inv in Hws as [_ ->].
    unfold baseline_otd. apply series_mean_bounds.
    intros q Hq. apply in_map_iff in Hq as (w & Hw & Hin).
    destruct (weekly_row_inv _ _ Hin) as (_ & _ & Hotd & _ & Hpct).
    rewrite Hpct, Hotd in Hw. revert Hw. apply num_mul_100_bounds.
    intros m. apply Hmean. intros r Hr. now apply week_rows_iff in Hr.
Qed.

Lemma otd_percentages_in_range_witness :
  exists p, otd_90 sample_orders = Some p /\ (0 <= p /\ p <= 100)%Q.
Proof.
  assert (Hflags : forall r q, In r sample_orders -> on_time r = Some q ->
                               (0 <= q /\ q <= 1)%Q).
  { intros r q [<- | [<- | [<- | [<- | []]]]] [= <-]; split; vm_compute;
      discriminate. }
  destruct (otd_90 sample_orders) as [p|] eqn:Hp; [|vm_compute in Hp; discriminate].
  exists p. split; [reflexivity|].
  exact (proj1 (otd_percentages_in_range sample_orders Hflags) p Hp).
Defined.

Lemma in_rolling_window (window : nat) (col : list num) (i : nat) (c : num) :
  In c (rolling_window window col i) -> In c col.
Proof.
  unfold rolling_window. intros Hin.
  set (lo := (S i - window)%nat) in *.
  rewrite <- (firstn_skipn lo col). apply in_or_app. right.
  rewrite <- (firstn_skipn (S i - lo) (skipn lo col)). apply in_or_app. now left.
Qed.

(** X6. When every review score present in a frame lies between [lo] and
    [hi] (1 and 5 for a star rating), so does every defined weekly review
    mean and every defined value of the 4-week rolling average. *)
Theorem review_means_in_range (lo hi : Q) (datetimelike : bool) (df : list order)
    (ws : list week_row) (w : week_row) :
  (forall r q, In r df -> review_score_mean r = Some q -> (lo <= q /\ q <= hi)%Q) ->
  weekly datetimelike df = Value ws ->
  In w ws ->
  (forall m, review (agg w) = Some m -> (lo <= m /\ m <= hi)%Q) /\
  (forall m, review_rolling w = Some m -> (lo <= m /\ m <= hi)%Q).
Proof.
  intros Hscores Hws Hw. apply weekly_inv in Hws as [_ ->].
  assert (Hweek : forall a m, In a (weekly_agg df) -> review a = Some m ->
                              (lo <= m /\ m <= hi)%Q).
  { intros a m Ha. unfold weekly_agg in Ha.
    apply in_map_iff in Ha as (k & <- & _). simpl.
    apply series_mean_bounds. intros q Hq.
    apply in_map_iff in Hq as (r & Hr & Hin).
    apply week_rows_iff in Hin as [Hin _]. eauto. }
  split.
  - intros m. apply Hweek.
    unfold weekly_frame in Hw. apply in_zip3_map in Hw as (a & z & Ha & ->). exact Ha.
  - intros m Hm. apply In_nth_error in Hw as (i & Hi).
    unfold weekly_frame in Hi. apply zip3_nth in Hi as (a & p & c & _ & _ & Hc & ->).
    simpl in Hm. subst c. unfold review_rolling_col in Hc.
    apply rolling_mean_nth in Hc as [_ Hc]. symmetry in Hc. revert Hc.
    apply series_mean_bounds. intros q Hq.
    apply in_rolling_window, in_map_iff in Hq as (a' & Ha' & Hin'). eauto.
Qed.

Lemma review_means_in_range_witness :
  weekly (has_rows sample_orders) (df90 sample_orders)
    = Value (weekly_frame (df90 sample_orders)) /\
  In sample_week (weekly_frame (df90 sample_orders)) /\
  forall m, review_rolling sample_week = Some m -> (1 <= m /\ m <= 5)%Q.
Proof.
  assert (Hws : weekly (has_rows sample_orders) (df90 sample_orders)
                = Value (weekly_frame (df90 sample_orders))) by reflexivity.
  assert (Hin : In sample_week (weekly_frame (df90 sample_orders))).
  { vm_compute. left. reflexivity. }
  split; [exact Hws|]. split; [exact Hin|].
  refine (proj2 (review_means_in_range 1 5 _ (df90 sample_orders) _ sample_week
                   _ Hws Hin)).
  intros r q Hr. vm_compute in Hr.
  destruct Hr as [<- | [<- | [<- | [<- | []]]]]; intros [= <-]; split; vm_compute;
    discriminate.
Defined.

(** ** The two 90th percentiles *)

Lemma notna_any_false (col : list num) :
  notna_any col = false -> dropna col = [].
Proof.
  unfold notna_any. induction col as [|[x|] col IH]; simpl; auto; discriminate.
Qed.

Lemma percentiles_agree (df : list order) : baseline_p90 df = p90 df.
Proof.
  unfold baseline_p90, p90.
  destruct (notna_any (map delivery_time_days df)) eqn:Hany; [reflexivity|].
  rewrite nanpercentile_90. unfold dropna_col. rewrite dropna_Some.
  now rewrite (notna_any_false _ Hany).
Qed.

(** X7. The baseline percentile of line 129 and the guarded percentile of
    the KPI card of line 143 are the same value on every frame: on a frame
    without a delivery duration, where the guard answers NaN,
    [np.nanpercentile] answers NaN as well; and that value is never an
    exception. *)
Theorem baseline_p90_is_p90 (df : list order) :
  baseline_p90 df = p90 df /\ exists v, p90 df = Value v.
Proof.
  split; [apply percentiles_agree|].
  destruct (percentiles_return df) as (b & p & _ & Hp). eauto.
Qed.

Lemma in_insert_sorted (x y : Q) (xs : list Q) :
  In y (insert_sorted x xs) <-> y = x \/ In y xs.
Proof.
  induction xs as [|z xs IH]; simpl; [intuition|].
  destruct (Qle_bool x z); simpl; [intuition|]. rewrite IH. intuition.
Qed.

Lemma in_sort_values (y : Q) (xs : list Q) : In y (sort_values xs) <-> In y xs.
Proof.
  unfold sort_values. induction xs as [|x xs IH]; simpl; [tauto|].
  rewrite in_insert_sorted, IH. intuition.
Qed.

Lemma length_insert_sorted (x : Q) (xs : list Q) :
  length (insert_sorted x xs) = S (length xs).
Proof.
  induction xs as [|z xs IH]; simpl; [reflexivity|].
  destruct (Qle_bool x z); simpl; congruence.
Qed.

Lemma length_sort_values (xs : list Q) : length (sort_values xs) = length xs.
Proof.
  unfold sort_values. induction xs as [|x xs IH]; simpl; [reflexivity|].
  now rewrite length_insert_sorted, IH.
Qed.

Lemma lerp_bounds (lo hi a b g : Q) :
  (lo <= a /\ a <= hi)%Q -> (lo <= b /\ b <= hi)%Q -> (0 <= g /\ g <= 1)%Q ->
  (lo <= a + (b - a) * g /\ a + (b - a) * g <= hi)%Q.
Proof.
  intros [Ha0 Ha1] [Hb0 Hb1] [Hg0 Hg1].
  assert (E : (a + (b - a) * g == a * (1 - g) + b * g)%Q) by ring.
  rewrite E.
  assert (H1 : (0 <= (a - lo) * (1 - g))%Q) by (apply Qmult_le_0_compat; lra).
  assert (H2 : (0 <= (b - lo) * g)%Q) by (apply Qmult_le_0_compat; lra).
  assert (H3 : (0 <= (hi - a) * (1 - g))%Q) by (apply Qmult_le_0_compat; lra).
  assert (H4 : (0 <= (hi - b) * g)%Q) by (apply Qmult_le_0_compat; lra).
  assert (E1 : (a * (1 - g) + b * g - lo == (a - lo) * (1 - g) + (b - lo) * g)%Q)
    by ring.
  assert (E2 : (hi - (a * (1 - g) + b * g) == (hi - a) * (1 - g) + (hi - b) * g)%Q)
    by ring.
  split; lra.
Qed.

Lemma percentile_linear_bounds (lo hi q : Q) (xs : list Q) :
  xs <> [] -> (0 <= q /\ q <= 100)%Q ->
  (forall x, In x xs -> (lo <= x /\ x <= hi)%Q) ->
  (lo <= percentile_linear xs q /\ percentile_linear xs q <= hi)%Q.
Proof.
  intros Hne [Hq0 Hq1] Hxs. unfold percentile_linear.
  rewrite length_sort_values.
  set (n := length xs).
  assert (Hn : (1 <= n)%nat) by (unfold n; destruct xs; [congruence|simpl; lia]).
  set (vi := (q / 100 * q_of_nat (n - 1))%Q).
  assert (HN : (0 <= q_of_nat (n - 1))%Q).
  { unfold q_of_nat. change 0%Q with (inject_Z 0). rewrite <- Zle_Qle. lia. }
  assert (Hfrac : (0 <= q / 100 /\ q / 100 <= 1)%Q).
  { split; [apply Qle_shift_div_l|apply Qle_shift_div_r]; lra. }
  assert (Hvi0 : (0 <= vi)%Q) by (apply Qmult_le_0_compat; tauto).
  assert (Hvi1 : (vi <= q_of_nat (n - 1))%Q).
  { unfold vi. set (F := (q / 100)%Q) in *. set (N := q_of_nat (n - 1)) in *.
    assert (H0 : (0 <= (1 - F) * N)%Q) by (apply Qmult_le_0_compat; lra).
    assert (E : ((1 - F) * N == N - F * N)%Q) by ring.
    rewrite E in H0. lra. }
  assert (Hf0 : 0 <= Qfloor vi).
  { change 0 with (Qfloor 0). now apply Qfloor_resp_le. }
  assert (Hf1 : Qfloor vi <= Z.of_nat (n - 1)).
  { rewrite <- (Qfloor_Z (Z.of_nat (n - 1))). now apply Qfloor_resp_le. }
  apply lerp_bounds.
  - apply Hxs, in_sort_values, nth_In. rewrite length_sort_values. fold n. lia.
  - apply Hxs, in_sort_values, nth_In. rewrite length_sort_values. fold n. lia.
  - pose proof (Qfloor_le vi). pose proof (Qlt_floor vi) as Hlt.
    rewrite inject_Z_plus in Hlt. change (inject_Z 1) with 1%Q in Hlt.
    split; lra.
Qed.

(** X8. The 90th percentile of the delivery durations lies between the
    smallest and the largest duration of the frame: with every duration
    present between [lo] and [hi], a defined percentile is between [lo]
    and [hi]; in particular it is not negative when no duration is. *)
Theorem p90_in_range (lo hi : Q) (df : list order) (v : Q) :
  (forall r q, In r df -> delivery_time_days r = Some q -> (lo <= q /\ q <= hi)%Q) ->
  p90 df = Value (Some v) -> (lo <= v /\ v <= hi)%Q.
Proof.
  intros Hdur. rewrite <- percentiles_agree. unfold baseline_p90, dropna_col.
  rewrite nanpercentile_90, dropna_Some.
  destruct (dropna (map delivery_time_days df)) as [|x xs] eqn:Hd; [discriminate|].
  intros [= <-]. apply percentile_linear_bounds; [discriminate|split; lra|].
  intros y Hy. rewrite <- Hd in Hy.
  apply in_dropna, in_map_iff in Hy as (r & Hr & Hin). eauto.
Qed.

Lemma p90_in_range_witness :
  exists v, p90 delivered_orders = Value (Some v) /\ (3 <= v /\ v <= 10)%Q.
Proof.
  assert (Hdur : forall r q, In r delivered_orders ->
                   delivery_time_days r = Some q -> (3 <= q /\ q <= 10)%Q).
  { intros r q [<- | [<- | [<- | []]]] [= <-]; split; vm_compute; discriminate. }
  destruct (p90 delivered_orders) as [[v|]|e] eqn:Hp;
    try (vm_compute in Hp; discriminate).
  exists v. split; [reflexivity|].
  exact (p90_in_range 3 10 delivered_orders v Hdur Hp).
Defined.

(** ** The north-star count *)

(** X9. The north-star count of on-time orders never exceeds the number of
    distinct orders of the frame, and equals it when every order of the
    frame is flagged on time. *)
Theorem nsm_value_at_most_orders (df : list order) :
  (nsm_value df <= nunique (map order_id df))%nat /\
  ((forall r, In r df -> is_one (on_time r) = true) ->
   nsm_value df = nunique (map order_id df)).
Proof.
  split.
  - unfold nsm_value, nunique. apply submseteq_length, NoDup_submseteq.
    + apply NoDup_remove_dups.
    + intros i Hi. rewrite elem_of_remove_dups, list_elem_of_In in Hi.
      rewrite elem_of_remove_dups, list_elem_of_In.
      apply in_dropna, in_map_iff in Hi as (r & Hr & Hin).
      apply filter_In in Hin as [Hin _].
      apply in_dropna, in_map_iff. eauto.
  - intros Hall. unfold nsm_value. now rewrite filter_all.
Qed.

Lemma nsm_value_at_most_orders_witness :
  (forall r, In r unreviewed_orders -> is_one (on_time r) = true) /\
  nsm_value unreviewed_orders = nunique (map order_id unreviewed_orders).
Proof.
  assert (Hall : forall r, In r unreviewed_orders -> is_one (on_time r) = true).
  { intros r [<- | []]. reflexivity. }
  split; [exact Hall|].
  exact (proj2 (nsm_value_at_most_orders unreviewed_orders) Hall).
Defined.

(** ** The open incidents *)









(** Incidents opened at the same time, or without an opening time, keep
    the order of the file. *)
Example open_inc_ties :
  map incident_id
      (open_inc_rows
         [ {| incident_id := Some 1; opened_at := NaT; severity := None;
              title := None; status := Some "open" |};
           {| incident_id := Some 2; opened_at := Some monday; severity := None;
              title := None; status := Some "open" |};
           {| incident_id := Some 3; opened_at := NaT; severity := None;
              title := None; status := Some "open" |};
           {| incident_id := Some 4; opened_at := Some monday; severity := None;
              title := None; status := Some "open" |} ])
  = [Some 2; Some 4; Some 1; Some 3].
Proof. reflexivity. Qed.

Example open_inc_sample :
  map incident_id (open_inc_rows sample_incidents) = [Some 3; Some 2].
Proof. reflexivity. Qed.

(** ** The policy tables *)

Lemma in_insert_by_fires (x y : string * nat) (xs : list (string * nat)) :
  In y (insert_by_fires x xs) <-> y = x \/ In y xs.
Proof.
  induction xs as [|z xs IH]; simpl; [intuition|].
  destruct (snd x <? snd z)%nat; simpl; [|intuition]. rewrite IH. intuition.
Qed.

Lemma insert_by_fires_perm (x : string * nat) (xs : list (string * nat)) :
  Permutation (insert_by_fires x xs) (x :: xs).
Proof.
  induction xs as [|z xs IH]; simpl; [reflexivity|].
  destruct (snd x <? snd z)%nat; [|reflexivity].
  rewrite IH. apply perm_swap.
Qed.

Lemma insert_by_fires_sorted (x : string * nat) (xs : list (string * nat)) :
  StronglySorted (fun a b => (snd b <= snd a)%nat) xs ->
  StronglySorted (fun a b => (snd b <= snd a)%nat) (insert_by_fires x xs).
Proof.
  induction xs as [|z xs IH]; intros Hs; simpl.
  - repeat constructor.
  - inversion Hs as [|? ? Hs' Hall]; subst.
    rewrite List.Forall_forall in Hall.
    destruct (Nat.ltb_spec (snd x) (snd z)) as [Hlt | Hge].
    + constructor; [now apply IH|]. apply List.Forall_forall. intros y Hy.
      apply in_insert_by_fires in Hy as [-> | Hy]; [lia|now apply Hall].
    + constructor; [exact Hs|]. apply List.Forall_forall. intros y [<- | Hy].
      * exact Hge.
      * specialize (Hall y Hy). simpl in Hall. lia.
Qed.

Lemma sort_by_fires_perm (xs : list (string * nat)) :
  Permutation (sort_by_fires xs) xs.
Proof.
  unfold sort_by_fires. induction xs as [|x xs IH]; simpl; [reflexivity|].
  rewrite insert_by_fires_perm. now constructor.
Qed.

(** Nodes with equal counts keep the order of the grouped frame. *)
Example sort_by_fires_ties :
  sort_by_fires [("A"%string, 2%nat); ("B"%string, 2%nat); ("C"%string, 3%nat)]
  = [("C"%string, 3%nat); ("A"%string, 2%nat); ("B"%string, 2%nat)].
Proof. reflexivity. Qed.

(** X11. The node table as displayed has the rows of the grouped counts,
    each once, in order of decreasing number of firings. *)
Theorem sort_by_fires_descending (counts : list (string * nat)) :
  Permutation (sort_by_fires counts) counts /\
  StronglySorted (fun a b => (snd b <= snd a)%nat) (sort_by_fires counts).
Proof.
  split; [apply sort_by_fires_perm|].
  unfold sort_by_fires. induction counts as [|x xs IH]; simpl; [constructor|].
  now apply insert_by_fires_sorted.
Qed.

Lemma list_sum_perm (xs ys : list nat) :
  Permutation xs ys -> list_sum xs = list_sum ys.
Proof. induction 1; simpl; lia. Qed.

Lemma list_sum_map_add {A : Type} (a b : A -> nat) (l : list A) :
  list_sum (map (fun x => a x + b x)%nat l) =
  (list_sum (map a l) + list_sum (map b l))%nat.
Proof. induction l as [|x l IH]; simpl; lia. Qed.

Section GroupCounts.

Context {K : Type} `{EqDecision K}.
Variable key : log_entry -> option K.

Lemma indicator_absent (P : bool) (k0 : K) (keys : list K) :
  ~ In k0 keys ->
  list_sum
    (map (fun k => if bool_decide (Some k0 = Some k) && P then 1 else 0)%nat keys)
  = 0%nat.
Proof.
  induction keys as [|k keys IH]; intros Hnin; simpl; [reflexivity|].
  rewrite IH by (intros ?; apply Hnin; now right).
  rewrite bool_decide_eq_false_2; [reflexivity|].
  intros [= ->]. apply Hnin. now left.
Qed.

Lemma indicator_present (P : bool) (k0 : K) (keys : list K) :
  List.NoDup keys -> In k0 keys ->
  list_sum
    (map (fun k => if bool_decide (Some k0 = Some k) && P then 1 else 0)%nat keys)
  = (if P then 1 else 0)%nat.
Proof.
  induction 1 as [|k keys Hnin Hnd IH]; intros Hin; [destruct Hin|].
  simpl. destruct Hin as [-> | Hin].
  - rewrite bool_decide_eq_true_2 by reflexivity.
    rewrite indicator_absent by exact Hnin. simpl. destruct P; reflexivity.
  - rewrite IH by exact Hin.
    rewrite bool_decide_eq_false_2; [reflexivity|].
    intros [= ->]. contradiction.
Qed.

Lemma group_count_cons (e : log_entry) (l : list log_entry) (k : K) :
  group_count key (e :: l) k =
  ((if bool_decide (key e = Some k) && notna (log_timestamp e) then 1 else 0)
   + group_count key l k)%nat.
Proof.
  unfold group_count, series_count. simpl.
  destruct (bool_decide (key e = Some k)); simpl; [|reflexivity].
  destruct (log_timestamp e); reflexivity.
Qed.

(** The counts of the groups add up to the number of rows that have both
    a key and a timestamp, provided every key of the frame is among the
    group keys and no group key is repeated. *)
Lemma group_count_total (keys : list K) (l : list log_entry) :
  List.NoDup keys ->
  (forall e k, In e l -> key e = Some k -> In k keys) ->
  list_sum (map (group_count key l) keys) =
  length (List.filter (fun e => notna (key e) && notna (log_timestamp e)) l).
Proof.
  intros Hnd. induction l as [|e l IH]; intros Hcover.
  - simpl. clear Hnd Hcover. induction keys; simpl; auto.
  - rewrite (map_ext _ _ (group_count_cons e l)), list_sum_map_add.
    rewrite IH by (intros; eapply Hcover; [right|]; eassumption).
    simpl. destruct (key e) as [k0|] eqn:Hk.
    + rewrite (indicator_present _ k0 keys Hnd) by (eapply Hcover; [now left|eauto]).
      simpl. destruct (notna (log_timestamp e)); reflexivity.
    + assert (Hzero : forall ks,
                list_sum (map (fun k : K =>
                  if bool_decide (@None K = Some k) && notna (log_timestamp e)
                  then 1 else 0)%nat ks) = 0%nat).
      { induction ks as [|k ks IHk]; [reflexivity|].
        cbn [map list_sum fold_right].
        rewrite bool_decide_eq_false_2 by discriminate. exact IHk. }
      rewrite Hzero. reflexivity.
Qed.

Lemma group_count_positive (l : list log_entry) (k : K) :
  (exists e, In e l /\ key e = Some k /\ notna (log_timestamp e) = true) ->
  (1 <= group_count key l k)%nat.
Proof.
  intros (e & Hin & Hk & Hts). induction l as [|x l IH]; [destruct Hin|].
  rewrite group_count_cons. destruct Hin as [-> | Hin].
  - rewrite bool_decide_eq_true_2 by exact Hk. rewrite Hts. simpl. lia.
  - specialize (IH Hin). lia.
Qed.

End GroupCounts.

Lemma sorted_NoDup {A : Type} (R : A -> A -> Prop) (l : list A) :
  (forall x, ~ R x x) -> StronglySorted R l -> List.NoDup l.
Proof.
  intros Hirr. induction 1 as [|x l Hs IH Hall]; constructor; [|exact IH].
  rewrite List.Forall_forall in Hall. intros Hin. exact (Hirr x (Hall x Hin)).
Qed.

Lemma ltb_lt (a b : string) :
  String.ltb a b = true <-> OrderedTypeEx.String_as_OT.lt a b.
Proof.
  rewrite <- OrderedTypeEx.String_as_OT.cmp_lt.
  unfold String.ltb, OrderedTypeEx.String_as_OT.cmp.
  destruct (String.compare a b); split; congruence.
Qed.

Lemma ltb_total (a b : string) :
  String.ltb a b = false -> String.eqb a b = false ->
  OrderedTypeEx.String_as_OT.lt b a.
Proof.
  intros Hlt Hne. apply ltb_lt. unfold String.ltb in *.
  rewrite String.compare_antisym.
  destruct (String.compare a b) eqn:Hc; simpl; try congruence.
  apply String.compare_eq_iff in Hc. subst. now rewrite String.eqb_refl in Hne.
Qed.

Lemma insert_name_sorted (k : string) (ks : list string) :
  StronglySorted OrderedTypeEx.String_as_OT.lt ks ->
  StronglySorted OrderedTypeEx.String_as_OT.lt (insert_name k ks).
Proof.
  induction ks as [|x ks IH]; intros Hs; simpl.
  - repeat constructor.
  - inversion Hs as [|? ? Hs' Hall]; subst.
    rewrite List.Forall_forall in Hall.
    destruct (String.ltb k x) eqn:Hlt.
    + apply ltb_lt in Hlt. constructor; [exact Hs|].
      apply List.Forall_forall. intros y [<- | Hy]; [exact Hlt|].
      eapply OrderedTypeEx.String_as_OT.lt_trans; [exact Hlt|now apply Hall].
    + destruct (String.eqb k x) eqn:Heq; [exact Hs|].
      constructor; [now apply IH|]. apply List.Forall_forall. intros y Hy.
      apply in_insert_name in Hy as [-> | Hy]; [now apply ltb_total|now apply Hall].
Qed.

Lemma group_names_NoDup (keys : list (option string)) :
  List.NoDup (group_names keys).
Proof.
  apply (sorted_NoDup OrderedTypeEx.String_as_OT.lt).
  - intros x Hx. exact (OrderedTypeEx.String_as_OT.lt_not_eq _ _ Hx eq_refl).
  - unfold group_names. induction (dropna keys) as [|k ks IH]; simpl.
    + constructor.
    + now apply insert_name_sorted.
Qed.

Lemma group_keys_NoDup (keys : list (option Z)) : List.NoDup (group_keys keys).
Proof.
  apply (sorted_NoDup Z.lt); [intros x; lia|apply group_keys_sorted].
Qed.

Lemma last7_timestamps (ffd : list log_entry) (e : log_entry) :
  In e (last7 ffd) -> notna (log_timestamp e) = true.
Proof.
  intros He. apply last7_iff in He as [_ (t & m & -> & _)]. reflexivity.
Qed.

Lemma filter_ext_on {A : Type} (f g : A -> bool) (l : list A) :
  (forall x, In x l -> f x = g x) -> List.filter f l = List.filter g l.
Proof.
  induction l as [|x l IH]; intros Hfg; simpl; [reflexivity|].
  rewrite (Hfg x (or_introl eq_refl)), IH; [reflexivity|].
  intros y Hy. apply Hfg. now right.
Qed.

(** X12. In the node table of the last 7 days no node is listed twice,
    every listed node has at least one firing, and the firings add up to
    the number of entries of the last 7 days that name a node: entries
    without a node are the only ones left out. *)
Theorem node_fires_total (ffd : list log_entry) :
  let table := sort_by_fires (node_counts (last7 ffd)) in
  List.NoDup (map fst table) /\
  (forall row, In row table -> (1 <= snd row)%nat) /\
  list_sum (map snd table) =
    length (List.filter (fun e => notna (node e)) (last7 ffd)).
Proof.
  intros table. set (l7 := last7 ffd).
  assert (Hperm : Permutation table (node_counts l7)) by apply sort_by_fires_perm.
  assert (Hrows : node_counts l7 =
            map (fun k => (k, group_count node l7 k)) (group_names (map node l7)))
    by reflexivity.
  split; [|split].
  - eapply Permutation_NoDup; [symmetry; apply Permutation_map; exact Hperm|].
    rewrite Hrows, map_map. simpl. rewrite map_id. apply group_names_NoDup.
  - intros row Hrow. apply (Permutation_in _ Hperm) in Hrow.
    rewrite Hrows in Hrow. apply in_map_iff in Hrow as (k & <- & Hk). simpl.
    apply in_group_names, in_map_iff in Hk as (e & He & Hin).
    apply group_count_positive. exists e. split; [exact Hin|].
    split; [exact He|]. now apply (last7_timestamps ffd).
  - rewrite (list_sum_perm _ _ (Permutation_map snd Hperm)).
    rewrite Hrows, map_map. simpl.
    rewrite (group_count_total node); [|apply group_names_NoDup|].
    + f_equal. apply filter_ext_on. intros e He.
      rewrite (last7_timestamps ffd e He). apply andb_true_r.
    + intros e k He Hk. apply in_group_names. rewrite <- Hk. now apply in_map.
Qed.

Lemma sorted_weaken {A : Type} (R S : A -> A -> Prop) (l : list A) :
  (forall x y, R x y -> S x y) -> StronglySorted R l -> StronglySorted S l.
Proof.
  intros HRS. induction 1 as [|x l Hs IH Hall]; constructor; [exact IH|].
  rewrite List.Forall_forall in *. auto.
Qed.

Lemma guardrail_label_binary (z : Z) :
  z = 0 \/ z = 1 ->
  guardrail_label z = Some "No"%string \/ guardrail_label z = Some "Yes"%string.
Proof. intros [-> | ->]; [left|right]; reflexivity. Qed.

Lemma gr_view_rows (counts : list (Z * nat)) :
  gr_view counts = map (fun r => (guardrail_label (fst r), snd r)) counts.
Proof.
  unfold gr_view, gr_labels. induction counts as [|r counts IH]; simpl; congruence.
Qed.

(** X13. In the guardrail table of the last 7 days every row counts at
    least one entry and the counts add up to the number of entries of the
    last 7 days that carry a flag.  When every flag of the log is 0 or 1
    the table has at most two rows, each labelled "No" or "Yes". *)
Theorem guardrail_table_total (ffd : list log_entry) :
  let table := gr_view (gr_counts (last7 ffd)) in
  (forall row, In row table -> (1 <= snd row)%nat) /\
  list_sum (map snd table) =
    length (List.filter (fun e => notna (guardrail_fired e)) (last7 ffd)) /\
  ((forall e z, In e ffd -> guardrail_fired e = Some z -> z = 0 \/ z = 1) ->
   (length table <= 2)%nat /\
   forall row, In row table ->
     fst row = Some "No"%string \/ fst row = Some "Yes"%string).
Proof.
  intros table. set (l7 := last7 ffd).
  assert (Hrows : gr_counts l7 =
            map (fun k => (k, group_count guardrail_fired l7 k))
                (group_keys (map guardrail_fired l7)))
    by reflexivity.
  assert (Htable : table =
            map (fun k => (guardrail_label k, group_count guardrail_fired l7 k))
                (group_keys (map guardrail_fired l7))).
  { unfold table. fold l7. rewrite gr_view_rows, Hrows, map_map. reflexivity. }
  split; [|split].
  - intros row Hrow. rewrite Htable in Hrow.
    apply in_map_iff in Hrow as (k & <- & Hk). simpl.
    apply in_group_keys, in_map_iff in Hk as (e & He & Hin).
    apply group_count_positive. exists e. split; [exact Hin|].
    split; [exact He|]. now apply (last7_timestamps ffd).
  - rewrite Htable, map_map. simpl.
    rewrite (group_count_total guardrail_fired); [|apply group_keys_NoDup|].
    + f_equal. apply filter_ext_on. intros e He.
      rewrite (last7_timestamps ffd e He). apply andb_true_r.
    + intros e k He Hk. apply in_group_keys. rewrite <- Hk. now apply in_map.
  - intros Hflags.
    assert (Hkeys : forall k, In k (group_keys (map guardrail_fired l7)) ->
                              k = 0 \/ k = 1).
    { intros k Hk. apply in_group_keys, in_map_iff in Hk as (e & He & Hin).
      apply last7_iff in Hin as [Hin _]. eauto. }
    split.
    + rewrite Htable, length_map.
      destruct (group_keys (map guardrail_fired l7)) as [|k0 ks] eqn:Hks;
        [simpl; lia|]. rewrite <- Hks in *.
      pose proof (gap_sorted_span 1 (-1) 1 (group_keys (map guardrail_fired l7))
                    ltac:(lia)) as Hspan.
      assert (Hlen : (Z.of_nat (length (group_keys (map guardrail_fired l7))) - 1) * 1
                     < 1 - -1).
      { apply Hspan.
        - apply (sorted_weaken Z.lt); [|apply group_keys_sorted].
          intros x y Hxy. lia.
        - rewrite Hks. discriminate.
        - intros k Hk. destruct (Hkeys k Hk); lia. }
      lia.
    + intros row Hrow. rewrite Htable in Hrow.
      apply in_map_iff in Hrow as (k & <- & Hk). simpl.
      apply guardrail_label_binary. auto.
Qed.

Lemma guardrail_table_total_witness :
  (forall e z, In e sample_log -> guardrail_fired e = Some z -> z = 0 \/ z = 1) /\
  (length (gr_view (gr_counts (last7 sample_log))) <= 2)%nat.
Proof.
  assert (Hflags : forall e z, In e sample_log -> guardrail_fired e = Some z ->
                               z = 0 \/ z = 1).
  { intros e z [<- | [<- | []]] [= <-]; now right. }
  split; [exact Hflags|].
  exact (proj1 (proj2 (proj2 (guardrail_table_total sample_log)) Hflags)).
Defined.

Lemma log_max_last7 (ffd : list log_entry) :
  series_max (map log_timestamp (last7 ffd)) = series_max (map log_timestamp ffd).
Proof.
  destruct (series_max (map log_timestamp ffd)) as [m|] eqn:Hm.
  - apply log_max_latest. pose proof Hm as Hlatest.
    apply log_max_latest in Hlatest as [(e & Hin & He) Hub]. split.
    + exists e. split; [|exact He]. apply last7_iff. split; [exact Hin|].
      exists m, m. split; [exact He|]. split; [now apply log_max_latest|].
      pose proof (Timedelta_nonneg 7 ltac:(lia)). lia.
    + intros e' t Hin' Ht. apply last7_iff in Hin' as [Hin' _]. eauto.
  - destruct (series_max (map log_timestamp (last7 ffd))) as [m'|] eqn:Hm';
      [|reflexivity].
    apply log_max_latest in Hm' as [(e & Hin & He) _].
    apply last7_iff in Hin as [_ (t & m & _ & Hlatest & _)].
    apply log_max_latest in Hlatest. congruence.
Qed.

(** X14. The 7-day filter of the policy log is idempotent, and it is empty
    exactly when no entry of the log carries a timestamp: the latest entry
    is always kept. *)
Theorem last7_idempotent (ffd : list log_entry) :
  last7 (last7 ffd) = last7 ffd /\
  (last7 ffd = [] <-> forall e, In e ffd -> log_timestamp e = NaT).
Proof.
  split.
  - unfold last7 at 1. rewrite log_max_last7. unfold last7. apply filter_twice.
  - split.
    + intros Hempty e Hin.
      destruct (log_timestamp e) as [t|] eqn:Ht; [|reflexivity]. exfalso.
      destruct (series_max_upper (map log_timestamp ffd) t) as (m & Hm & _).
      { rewrite <- Ht. now apply in_map. }
      rewrite <- log_max_last7, Hempty in Hm. discriminate.
    + intros Hall. destruct (last7 ffd) as [|e rest] eqn:Hl; [reflexivity|].
      assert (Hin : In e (last7 ffd)) by (rewrite Hl; now left).
      apply last7_iff in Hin as [Hin (t & m & Ht & _)].
      rewrite (Hall e Hin) in Ht. discriminate.
Qed.

(** ** Calendar weeks, continued *)

(** X15. The week start is monotone in the timestamp and is its own week
    start, so the calendar weeks are consecutive intervals of seven days
    that begin on a Monday midnight. *)
Theorem week_start_monotone_idempotent (t1 t2 : Z) :
  (t1 <= t2 -> week_start t1 <= week_start t2) /\
  week_start (week_start t1) = week_start t1 /\
  (week_start t1 < week_start t2 -> week_start t1 + Timedelta 7 <= week_start t2).
Proof.
  split; [apply week_start_mono|]. split; [|apply week_start_gap].
  apply week_start_same. pose proof (Timedelta_nonneg 7 ltac:(lia)).
  unfold Timedelta, day_ns in *. lia.
Qed.

Lemma week_start_monotone_idempotent_witness :
  monday + 5 <= monday + Timedelta 8 /\
  week_start (monday + 5) <= week_start (monday + Timedelta 8).
Proof.
  assert (Hle : monday + 5 <= monday + Timedelta 8) by (vm_compute; discriminate).
  split; [exact Hle|].
  exact (proj1 (week_start_monotone_idempotent (monday + 5) (monday + Timedelta 8)) Hle).
Defined.

(** ** The loader, continued *)

Ltac load_cases d g demo_frame demo_logs :=
  unfold load_data, demo_impact, orders_after_fallback, absent_with_notice;
  destruct d as [c s i f n]; simpl;
  destruct c as [c|]; [|destruct (demo_frame g) as [c ?]];
  destruct s as [[|s0 s]|], i as [i|], f as [f|], n as [n|]; simpl;
  try (destruct (series_max (map order_purchase_timestamp c)) as [now|] eqn:?;
       [destruct (demo_logs now _) as [f ?]|]; simpl).

(** X16. The loader raises in two cases only.  One: [impact_models.csv]
    is absent and [segments_summary.csv] is there without a row, so that
    the demo impact rows cannot be derived (line 87).  Two:
    [ffd_logs.csv] is absent and the order table the loader works with
    (the file, or the demo frame when the file is absent) holds no
    purchase timestamp, so that the hours of the demo log cannot be
    generated (line 93). *)
Theorem load_data_raises_iff (rng : Type) (demo_frame : rng -> list order * rng)
    (demo_logs : Z -> rng -> list log_entry * rng) (d : disk) (g : rng) :
  (exists e, load_data rng demo_frame demo_logs d g = Raised e) <->
  (impact_models_csv d = None /\ segments_summary_csv d = Some []) \/
  (ffd_logs_csv d = None /\
   series_max (map order_purchase_timestamp
                   (orders_after_fallback rng demo_frame d g)) = NaT).
Proof.
  load_cases d g demo_frame demo_logs;
    (split; [intros (e & He); try discriminate; auto
            |intros [[H1 H2] | [H1 H2]]; try discriminate; try congruence; eauto]).
Qed.

(** X17. A load that completes hands every file that is present through
    unchanged and fills every gap from what it has loaded so far: the demo
    segments, the demo impact rows of the loaded segments, the demo
    incidents dated from the loaded orders.  It emits one notice for each
    absent file among the first four and none for [incidents.csv]. *)
Theorem load_data_tables (rng : Type) (demo_frame : rng -> list order * rng)
    (demo_logs : Z -> rng -> list log_entry * rng) (d : disk) (g g' : rng)
    (t : tables) (notices : list notice) :
  load_data rng demo_frame demo_logs d g = Value (t, notices, g') ->
  t_clean t = orders_after_fallback rng demo_frame d g /\
  t_seg t = match segments_summary_csv d with
            | Some s => s
            | None => demo_segments
            end /\
  match impact_models_csv d with
  | Some i => t_impact t = i
  | None => demo_impact (t_seg t) = Value (t_impact t)
  end /\
  (forall f, ffd_logs_csv d = Some f -> t_ffd t = f) /\
  t_inc t = match incidents_csv d with
            | Some n => n
            | None => demo_incidents (t_clean t)
            end /\
  length notices = absent_with_notice d.
Proof.
  load_cases d g demo_frame demo_logs;
    intros Hrun; inversion Hrun; subst; simpl;
    repeat split; try reflexivity; intros ? [= <-]; reflexivity.
Qed.

Lemma load_data_tables_witness :
  load_data unit sample_demo_frame sample_demo_logs empty_disk tt = Value sample_load /\
  demo_impact demo_segments = Value (t_impact (fst (fst sample_load))) /\
  length (snd (fst sample_load)) = 4%nat.
Proof.
  assert (Hrun : load_data unit sample_demo_frame sample_demo_logs empty_disk tt
                 = Value sample_load) by (vm_compute; reflexivity).
  split; [exact Hrun|].
  destruct sample_load as [[t notices] g'] eqn:Hload. simpl.
  destruct (load_data_tables unit sample_demo_frame sample_demo_logs empty_disk
              tt g' t notices Hrun) as (_ & Hseg & Himp & _ & _ & Hlen).
  simpl in Hseg, Himp. rewrite Hseg in Himp. split; [exact Himp|exact Hlen].
Defined.

(** ** A whole run *)

(** X18. A run of the program completes exactly when its load completes
    and the loaded tables are well-formed: the order table has a row, the
    status column of the incidents holds text (or has no row), and the
    segment names hold text (or the segment table has no row, or no
    base-scenario row of the impact table names a segment).  The run then
    shows the notices of the loader and the page that [page_of] gives for
    the loaded tables, with the same percentile in the baseline and on the
    KPI card.  Otherwise the run raises: with the load, or at [.dt] of line
    121, [.str] of line 176 or [merge] of line 188. *)
Theorem app_py_follows_load (rng : Type) (demo_frame : rng -> list order * rng)
    (demo_logs : Z -> rng -> list log_entry * rng) (d : disk) (g : rng) :
  (forall e, load_data rng demo_frame demo_logs d g = Raised e ->
             app_py rng demo_frame demo_logs d g = Raised e) /\
  (forall t notices g',
     load_data rng demo_frame demo_logs d g = Value (t, notices, g') ->
     (well_formed t ->
      exists p,
        p90 (df90 (t_clean t)) = Value p /\
        app_py rng demo_frame demo_logs d g = Value (notices, page_of t p p)) /\
     (~ well_formed t ->
      exists e, app_py rng demo_frame demo_logs d g = Raised e)).
Proof.
  unfold app_py. split.
  - intros e ->. reflexivity.
  - intros t notices g' ->. cbn [bind]. split.
    + intros Hwf.
      destruct (dashboard_runs t Hwf) as (b & p & extra & Hb & Hp & Hrun).
      rewrite Hrun. cbn [bind fst]. rewrite percentiles_agree in Hb.
      assert (b = p) by congruence. subst b. eauto.
    + intros Hnwf.
      destruct (dashboard 0 1 2 3 4 (loaded_store t)) as [[pg h']|e] eqn:Hrun.
      * exfalso. apply Hnwf. eapply dashboard_stops. exact Hrun.
      * cbn [bind]. eauto.
Qed.

Lemma app_py_follows_load_witness :
  well_formed (fst (fst sample_load)) /\
  exists p, app_py unit sample_demo_frame sample_demo_logs empty_disk tt =
            Value (snd (fst sample_load), page_of (fst (fst sample_load)) p p).
Proof.
  assert (Hrun : load_data unit sample_demo_frame sample_demo_logs empty_disk tt
                 = Value sample_load) by (vm_compute; reflexivity).
  assert (Hwf : well_formed (fst (fst sample_load))).
  { split; [discriminate|]. split; [|left]; right; eexists; left; reflexivity. }
  split; [exact Hwf|].
  destruct sample_load as [[t notices] g'] eqn:Hload. simpl in *.
  destruct (proj1 (proj2 (app_py_follows_load unit sample_demo_frame sample_demo_logs
                     empty_disk tt) t notices g' Hrun) Hwf) as (p & _ & Happ).
  exists p. exact Happ.
Defined.

(** ** The demo impact table and the rollup *)

Lemma length_demo_impact (seg : list segment) :
  length (demo_impact_frame seg) = (3 * length seg)%nat.
Proof.
  unfold demo_impact_frame. rewrite length_map.
  induction seg as [|s seg IH]; simpl; [reflexivity|]. rewrite IH. lia.
Qed.

Lemma base_row_of_segment (s : segment) :
  map imp_segment (List.filter is_base (map apply_recalc (demo_impact_rows s))) =
  [seg_name s].
Proof. reflexivity. Qed.

Lemma impact_base_demo (seg : list segment) :
  map imp_segment (impact_base (demo_impact_frame seg)) = map seg_name seg.
Proof.
  unfold demo_impact_frame, impact_base.
  induction seg as [|s seg IH]; [reflexivity|].
  cbn [flat_map]. rewrite map_app, List.filter_app, map_app.
  now rewrite base_row_of_segment, IH.
Qed.

Lemma expected_effect_defined (seg : list segment) (base : list impact_row)
    (v : seg_view_row) (name : string) :
  In v (seg_view_rows seg (base_impact base)) ->
  seg_name (sv_segment v) = Some name ->
  In (Some name) (map imp_segment base) ->
  expected_effect v = Some (series_sum (map net_effect (segment_rows base name))).
Proof.
  unfold seg_view_rows, merge_rows. intros Hv Hname Hin.
  apply in_map_iff in Hv as (s & <- & _). simpl in *. rewrite Hname.
  unfold base_impact.
  apply (lookup_name_found
           (fun k => series_sum (map net_effect (segment_rows base k)))).
  now apply in_group_names.
Qed.

(** X19. The demo impact table is built for every segment table that has
    a row.  It has three rows for every segment row, one of them for the
    base scenario; so when [impact_models.csv] is absent every segment
    that has a name gets a number as its expected 90-day effect in the
    segment rollup, never the missing value. *)
Theorem demo_impact_covers_segments (seg : list segment) :
  (seg <> [] -> exists rows, demo_impact seg = Value rows) /\
  (forall rows,
     demo_impact seg = Value rows ->
     length rows = (3 * length seg)%nat /\
     length (impact_base rows) = length seg /\
     (forall view v name,
        seg_view seg (base_impact (impact_base rows)) = Value view ->
        In v view ->
        seg_name (sv_segment v) = Some name ->
        exists q, expected_effect v = Some q)).
Proof.
  split.
  - intros Hne. eexists. now apply demo_impact_rows_exist.
  - intros rows Hrows. apply demo_impact_inv in Hrows as [_ ->].
    split; [apply length_demo_impact|]. split.
    + rewrite <- (length_map imp_segment), impact_base_demo. apply length_map.
    + intros view v name Hview Hv Hname. apply seg_view_inv in Hview as [_ ->].
      eexists.
      apply (expected_effect_defined seg _ v name Hv Hname).
      rewrite impact_base_demo. rewrite <- Hname.
      unfold seg_view_rows, merge_rows in Hv.
      apply in_map_iff in Hv as (s & <- & Hs).
      simpl. now apply in_map.
Qed.

Lemma demo_impact_covers_segments_witness :
  demo_segments <> [] /\
  exists rows,
    demo_impact demo_segments = Value rows /\
    length rows = 15%nat.
Proof.
  assert (Hne : demo_segments <> []) by discriminate.
  split; [exact Hne|].
  destruct (proj1 (demo_impact_covers_segments demo_segments) Hne) as (rows & Hrows).
  exists rows. split; [exact Hrows|].
  exact (proj1 (proj2 (demo_impact_covers_segments demo_segments) rows Hrows)).
Defined.

(** ** The net gain and the segment sums *)

Lemma q_sum_map_ext {A : Type} (a b : A -> Q) (l : list A) :
  (forall x, (a x == b x)%Q) -> (q_sum (map a l) == q_sum (map b l))%Q.
Proof.
  intros Hab. induction l as [|x l IH]; simpl; [reflexivity|].
  now rewrite Hab, IH.
Qed.

Lemma q_sum_map_add {A : Type} (a b : A -> Q) (l : list A) :
  (q_sum (map (fun x => a x + b x) l) == q_sum (map a l) + q_sum (map b l))%Q.
Proof.
  induction l as [|x l IH]; simpl; [reflexivity|]. rewrite IH. ring.
Qed.

Lemma series_sum_cons (c : num) (col : list num) :
  (series_sum (c :: col) == cell_value c + series_sum col)%Q.
Proof. unfold series_sum. destruct c; simpl; [reflexivity|ring]. Qed.

Lemma segment_sum_cons (e : impact_row) (l : list impact_row) (k : string) :
  (series_sum (map net_effect (segment_rows (e :: l) k)) ==
   (if bool_decide (imp_segment e = Some k) then cell_value (net_effect e) else 0)
   + series_sum (map net_effect (segment_rows l k)))%Q.
Proof.
  unfold segment_rows. simpl.
  destruct (bool_decide (imp_segment e = Some k)).
  - simpl. apply series_sum_cons.
  - ring.
Qed.

Lemma q_indicator_absent (x : Q) (k0 : string) (keys : list string) :
  ~ In k0 keys ->
  (q_sum (map (fun k => if bool_decide (Some k0 = Some k) then x else 0) keys) == 0)%Q.
Proof.
  induction keys as [|k keys IH]; intros Hnin; simpl; [reflexivity|].
  rewrite IH by (intros ?; apply Hnin; now right).
  rewrite bool_decide_eq_false_2; [ring|].
  intros [= ->]. apply Hnin. now left.
Qed.

Lemma q_indicator_present (x : Q) (k0 : string) (keys : list string) :
  List.NoDup keys -> In k0 keys ->
  (q_sum (map (fun k => if bool_decide (Some k0 = Some k) then x else 0) keys) == x)%Q.
Proof.
  induction 1 as [|k keys Hnin Hnd IH]; intros Hin; [destruct Hin|].
  simpl. destruct Hin as [-> | Hin].
  - rewrite bool_decide_eq_true_2 by reflexivity.
    rewrite q_indicator_absent by exact Hnin. ring.
  - rewrite IH by exact Hin.
    rewrite bool_decide_eq_false_2; [ring|].
    intros [= ->]. contradiction.
Qed.

Lemma segment_sums_total (keys : list string) (l : list impact_row) :
  List.NoDup keys ->
  (forall e k, In e l -> imp_segment e = Some k -> In k keys) ->
  (q_sum (map (fun k => series_sum (map net_effect (segment_rows l k))) keys) ==
   series_sum (map net_effect (List.filter (fun e => notna (imp_segment e)) l)))%Q.
Proof.
  intros Hnd. induction l as [|e l IH]; intros Hcover.
  - simpl. clear Hnd Hcover. induction keys as [|k keys IHk]; simpl; [reflexivity|].
    rewrite IHk. unfold series_sum. simpl. ring.
  - rewrite (q_sum_map_ext _ _ keys (segment_sum_cons e l)), q_sum_map_add.
    rewrite IH by (intros; eapply Hcover; [right|]; eassumption).
    simpl. destruct (imp_segment e) as [k0|] eqn:Hk; simpl.
    + rewrite (q_indicator_present _ k0 keys Hnd)
        by (eapply Hcover; [now left|eauto]).
      now rewrite series_sum_cons.
    + assert (Hzero : (q_sum (map (fun k : string =>
                 if bool_decide (@None string = Some k)
                 then cell_value (net_effect e) else 0) keys) == 0)%Q).
      { clear. induction keys as [|k keys IHk]; [reflexivity|].
        cbn [map q_sum fold_right].
        rewrite bool_decide_eq_false_2 by discriminate. rewrite IHk. ring. }
      rewrite Hzero. ring.
Qed.

(** X20. The net gain of the KPI card is the total of the per-segment sums
    of the segment rollup plus the net effect of the base-scenario rows
    that name no segment; when every base-scenario row names a segment the
    card and the column of sums agree. *)
Theorem net_gain_is_sum_of_segments (impact : list impact_row) :
  let base := impact_base impact in
  (net_gain base ==
   q_sum (map snd (base_impact base)) +
   series_sum (map net_effect
                   (List.filter (fun e => negb (notna (imp_segment e))) base)))%Q.
Proof.
  intros base. unfold net_gain, base_impact. rewrite map_map. simpl.
  rewrite segment_sums_total; [|apply group_names_NoDup|].
  - clear. induction base as [|e l IH]; simpl; [reflexivity|].
    rewrite series_sum_cons, IH.
    destruct (notna (imp_segment e)); simpl; rewrite series_sum_cons; ring.
  - intros e k He Hk. apply in_group_names. rewrite <- Hk. now apply in_map.
Qed.

(** ** The average order value of the demo rows *)

Lemma round2_error (x a : Q) :
  round2 (Some x) = Some a ->
  (x - (1 # 200) <= a /\ a <= x + (1 # 200))%Q /\
  exists z, (a == inject_Z z / 100)%Q.
Proof.
  unfold round2. cbv zeta.
  set (y := (x * 100)%Q). set (f := Qfloor y).
  set (up := match (y - inject_Z f ?= 1 # 2)%Q with
             | Lt => false
             | Gt => true
             | Eq => Z.odd f
             end).
  set (z := if up then (f + 1)%Z else f).
  assert (Hz : (y - (1 # 2) <= inject_Z z /\ inject_Z z <= y + (1 # 2))%Q).
  { pose proof (Qfloor_le y) as Hlo. pose proof (Qlt_floor y) as Hhi.
    fold f in Hlo, Hhi. rewrite inject_Z_plus in Hhi.
    change (inject_Z 1) with 1%Q in Hhi.
    unfold z, up.
    destruct (Qcompare_spec (y - inject_Z f) (1 # 2)) as [He | Hl | Hg].
    - destruct (Z.odd f); rewrite ?inject_Z_plus; change (inject_Z 1) with 1%Q;
        split; lra.
    - split; lra.
    - rewrite inject_Z_plus. change (inject_Z 1) with 1%Q. split; lra. }
  clearbody z. intros Ha. assert (Ea : a = (inject_Z z / 100)%Q) by congruence.
  subst a. clear Ha. split; [|exists z; reflexivity].
  unfold y in Hz. generalize dependent (inject_Z z). intros q Hz.
  assert (Ha : (q / 100 * 100 == q)%Q) by field.
  set (a := (q / 100)%Q) in *. split; lra.
Qed.

(** X21. In the demo impact table the average order value of a row whose
    baseline GMV [g] and order count [n] are present, with [n] not zero, is
    [g / n] rounded to two decimals: a whole number of hundredths at most
    half a hundredth away from [g / n]. *)
Theorem demo_aov_rounded (seg : list segment) (rows : list impact_row)
    (r : impact_row) (g n : Q) :
  demo_impact seg = Value rows ->
  In r rows ->
  gmv_base r = Some g -> orders_90d r = Some n -> ~ (n == 0)%Q ->
  exists a,
    aov r = Some a /\
    (g / n - (1 # 200) <= a /\ a <= g / n + (1 # 200))%Q /\
    exists z, (a == inject_Z z / 100)%Q.
Proof.
  intros Hrows Hr Hg Hn Hnz. apply demo_impact_inv in Hrows as [_ ->].
  unfold demo_impact_frame in Hr.
  apply in_map_iff in Hr as (r0 & <- & Hr0).
  apply in_flat_map in Hr0 as (s & _ & Hr0).
  assert (Haov : aov (apply_recalc r0) = round2 (Some (g / n)%Q)).
  { destruct Hr0 as [<- | [<- | [<- | []]]]; simpl in *; rewrite Hg, Hn; simpl;
      destruct (Qeq_bool n 0) eqn:Hz;
      try (apply Qeq_bool_iff in Hz; contradiction); reflexivity. }
  destruct (round2 (Some (g / n)%Q)) as [a|] eqn:Hround; [|discriminate].
  exists a. split; [exact Haov|]. now apply round2_error.
Qed.

Lemma demo_aov_rounded_witness :
  demo_impact (firstn 1 demo_segments) = Value sample_impact /\
  In sample_base_row sample_impact /\
  exists a,
    aov sample_base_row = Some a /\
    (2300000 / 2300 - (1 # 200) <= a /\ a <= 2300000 / 2300 + (1 # 200))%Q.
Proof.
  assert (Hrows : demo_impact (firstn 1 demo_segments) = Value sample_impact)
    by reflexivity.
  assert (Hin : In sample_base_row sample_impact).
  { vm_compute. right. left. reflexivity. }
  split; [exact Hrows|]. split; [exact Hin|].
  destruct (demo_aov_rounded (firstn 1 demo_segments) sample_impact sample_base_row
              2300000 2300 Hrows Hin eq_refl eq_refl) as (a & Ha & Hb & _).
  - intros H. vm_compute in H. discriminate H.
  - exists a. split; [exact Ha|exact Hb].
Defined.
